(** * Student Management System: a shallow embedding of
      [StudentManagementSystem.cpp] and the properties of its record store
      and of its file persistence.

    The development has four layers, in the order of the source file:
    - [Float32]: the [float] type of the [marks] field (IEEE binary32);
    - [ios]: the part of the C++ stream library the program calls
      ([getline], [operator>>] on [int] and [float], [ignore],
      [operator<<] on [int] and [float]);
    - the classes [Student] and [StudentManagementSystem];
    - the theorems. *)

From Stdlib Require Import ZArith Lia Ascii String Floats.SpecFloat.
From Stdlib Require Import DecimalString DecimalZ.
From stdpp Require Import base list strings.

Local Open Scope Z_scope.

(** ** Single-precision floating point *)

Module Float32.

Definition prec : Z := 24.
Definition emax : Z := 128.

(** [float x] converted from an integer (round to nearest even). *)
Definition of_Z (z : Z) : spec_float := binary_normalize prec emax z 0 false.

Definition ltb : spec_float -> spec_float -> bool := SFltb.
Definition leb : spec_float -> spec_float -> bool := SFleb.
Definition add : spec_float -> spec_float -> spec_float := SFadd prec emax.
Definition div : spec_float -> spec_float -> spec_float := SFdiv prec emax.

Definition is_nan (f : spec_float) : bool :=
  match f with S754_nan => true | _ => false end.

Definition is_finite (f : spec_float) : bool :=
  match f with S754_zero _ | S754_finite _ _ _ => true | _ => false end.

(** The value [m * 10^e] with sign [neg], correctly rounded: what [strtof]
    returns for a decimal literal with digits [m] and exponent [e]. *)
Definition of_decimal (neg : bool) (m e : Z) : spec_float :=
  match m with
  | Zpos p =>
      if 0 <=? e
      then binary_normalize prec emax (cond_Zopp neg (m * 10 ^ e)) 0 false
      else SFdiv prec emax (S754_finite neg p 0)
                           (S754_finite false (Z.to_pos (10 ^ (- e))) 0)
  | _ => S754_zero neg
  end.

(** The exact value [m * 2^e] as a fraction. *)
Definition ratio (m : positive) (e : Z) : Z * Z :=
  if 0 <=? e then (Zpos m * 2 ^ e, 1) else (Zpos m, 2 ^ (- e)).

(** The fraction [nd] times [10^k]. *)
Definition scale10 (k : Z) (nd : Z * Z) : Z * Z :=
  if 0 <=? k then (fst nd * 10 ^ k, snd nd) else (fst nd, snd nd * 10 ^ (- k)).

Definition ge_pow10 (m : positive) (e X : Z) : bool :=
  let '(n, d) := scale10 (- X) (ratio m e) in d <=? n.

(** The decimal exponent of [m * 2^e]: the largest [X] at or below the
    start value with [10^X <= m * 2^e]. *)
Fixpoint exp10_from (fuel : nat) (m : positive) (e X : Z) : Z :=
  match fuel with
  | O => X
  | S k => if ge_pow10 m e X then X else exp10_from k m e (X - 1)
  end.

Definition round_half_even (nd : Z * Z) : Z :=
  let '(n, d) := nd in
  let q := n / d in
  match 2 * (n mod d) ?= d with
  | Lt => q
  | Gt => q + 1
  | Eq => if Z.even q then q else q + 1
  end.

(** Six significant decimal digits of [m * 2^e] and its decimal exponent,
    as the conversion [%.6g] computes them. *)
Definition sig6 (m : positive) (e : Z) : Z * Z :=
  let X := exp10_from 100 m e 40 in
  let R := round_half_even (scale10 (5 - X) (ratio m e)) in
  if R =? 1000000 then (100000, X + 1) else (R, X).

End Float32.

(** ** Text *)

Definition newline : ascii := "010"%char.

Definition isspace (c : ascii) : bool :=
  let n := nat_of_ascii c in
  ((n =? 32) || ((9 <=? n) && (n <=? 13)))%nat.

Definition isdigit (c : ascii) : bool :=
  let n := nat_of_ascii c in ((48 <=? n) && (n <=? 57))%nat.

Definition digit_value (c : ascii) : Z := Z.of_nat (nat_of_ascii c) - 48.

Definition digit_char (d : Z) : ascii := ascii_of_nat (48 + Z.to_nat d).

(** The value of a run of decimal digits, most significant first. *)
Definition digits_value (ds : list ascii) : Z :=
  fold_left (fun acc c => 10 * acc + digit_value c) ds 0.

(** The [n] lowest decimal digits of [z], most significant first. *)
Fixpoint digits_of (n : nat) (z : Z) (acc : list ascii) : list ascii :=
  match n with
  | O => acc
  | S k => digits_of k (z / 10) (digit_char (z mod 10) :: acc)
  end.

(** The longest prefix of [l] that satisfies [p], and the rest. *)
Fixpoint span (p : ascii -> bool) (l : list ascii) : list ascii * list ascii :=
  match l with
  | c :: l' =>
      if p c then let '(a, b) := span p l' in (c :: a, b) else ([], l)
  | [] => ([], [])
  end.

Definition is_zero_char (c : ascii) : bool := Ascii.eqb c "0".

Definition strip_trailing_zeros (l : list ascii) : list ascii :=
  rev (snd (span is_zero_char (rev l))).

Definition text (s : string) : list ascii := list_ascii_of_string s.

(** ** The stream library

    [ofstream] insertion is modelled by the text it appends to the file,
    [ifstream] by the unread characters and the state bits.  Number
    formatting and parsing follow the classic "C" locale, the default float
    format ([%g] with precision 6) and decimal integers, which is what a
    default-constructed file stream uses. *)

Module ios.

(** *** Output *)

Definition put_int (z : Z) : list ascii :=
  text (NilZero.string_of_int (Z.to_int z)).

Definition sign_text (s : bool) : list ascii :=
  if s then ["-"%char] else [].

Definition with_point (ip frac : list ascii) : list ascii :=
  match frac with
  | [] => ip
  | _ => ip ++ "."%char :: frac
  end.

(** Exponent of the scientific style: a sign and at least two digits. *)
Definition exponent_text (X : Z) : list ascii :=
  (if X <? 0 then "-"%char else "+"%char)
    :: (if Z.abs X <? 10 then ["0"%char; digit_char (Z.abs X)]
        else put_int (Z.abs X)).

Definition put_float (f : spec_float) : list ascii :=
  match f with
  | S754_zero s => sign_text s ++ ["0"%char]
  | S754_infinity s => sign_text s ++ text "inf"
  | S754_nan => text "nan"
  | S754_finite s m e =>
      let '(R, X) := Float32.sig6 m e in
      let ds := digits_of 6 R [] in
      sign_text s ++
      (if (X <? -4) || (6 <=? X) then
         with_point (take 1 ds) (strip_trailing_zeros (drop 1 ds))
           ++ "e"%char :: exponent_text X
       else if 0 <=? X then
         with_point (take (Z.to_nat (X + 1)) ds)
                    (strip_trailing_zeros (drop (Z.to_nat (X + 1)) ds))
       else
         with_point ["0"%char]
                    (replicate (Z.to_nat (- X - 1)) "0"%char
                       ++ strip_trailing_zeros ds))
  end.

(** *** Input *)

Record istream := {
  buf : list ascii;      (* the characters not yet read *)
  eofbit : bool;
  failbit : bool;
  badbit : bool
}.

Definition open (content : list ascii) : istream :=
  {| buf := content; eofbit := false; failbit := false; badbit := false |}.

Definition good (f : istream) : bool :=
  negb (eofbit f || failbit f || badbit f).
Definition fail (f : istream) : bool := failbit f || badbit f.
Definition bad (f : istream) : bool := badbit f.

(** [setstate(eof | fail)] with the given bits, after reading up to [rest]. *)
Definition advance (f : istream) (rest : list ascii) (eof failed : bool)
  : istream :=
  {| buf := rest; eofbit := eofbit f || eof;
     failbit := failbit f || failed; badbit := badbit f |}.

(** [istream::sentry], which every read constructs first.  When the
    stream is not [good], that is when any state bit is set, [eofbit]
    included, the sentry sets [failbit] and the read does nothing.
    Otherwise a formatted read ([noskipws] false) skips white space, and
    sets [eofbit] and [failbit] when that takes it to the end. *)
Definition sentry (noskipws : bool) (f : istream) : bool * istream :=
  if good f then
    if noskipws then (true, f)
    else
      match snd (span isspace (buf f)) with
      | [] => (false, advance f [] true true)
      | rest => (true, advance f rest false false)
      end
  else (false, advance f (buf f) false true).

(** [getline(is, str)]: characters up to the next newline, which is
    consumed and not stored; [failbit] when nothing at all was extracted.
    [str] keeps its old value when the sentry fails. *)
Definition getline (f : istream) (str : string) : istream * string :=
  let '(ok, f) := sentry true f in
  if ok then
    let '(line, rest) := span (fun c => negb (Ascii.eqb c newline)) (buf f) in
    match rest with
    | _ :: rest' => (advance f rest' false false, string_of_list_ascii line)
    | [] =>
        (advance f [] true (bool_decide (line = [])), string_of_list_ascii line)
    end
  else (f, str).

(** [is.ignore()], an unformatted read: behind the sentry it drops one
    character, or sets [eofbit] when there is none.  On a stream that has
    [eofbit] set already, the sentry sets [failbit]. *)
Definition ignore (f : istream) : istream :=
  let '(ok, f) := sentry true f in
  if ok then
    match buf f with
    | _ :: rest => advance f rest false false
    | [] => advance f [] true false
    end
  else f.

Definition INT_MAX : Z := 2147483647.
Definition INT_MIN : Z := -2147483648.

Definition is_sign (c : ascii) : bool := Ascii.eqb c "+" || Ascii.eqb c "-".

(** An optional sign: whether it is a minus, and the rest. *)
Definition scan_sign (l : list ascii) : bool * list ascii :=
  match l with
  | c :: l' => if is_sign c then (Ascii.eqb c "-", l') else (false, l)
  | [] => (false, l)
  end.

(** [is >> n] for an [int]: an optional sign and the longest run of
    digits.  No digits gives 0 and [failbit], a value out of range gives
    the nearest bound and [failbit]; [eofbit] is set when the run of digits
    reaches the end of the text.  [n] is left alone when the sentry fails. *)
Definition extract_int (f : istream) (n : Z) : istream * Z :=
  let '(ok, f) := sentry false f in
  if ok then
    let '(neg, l) := scan_sign (buf f) in
    let '(ds, rest) := span isdigit l in
    let eof := bool_decide (rest = []) in
    match ds with
    | [] => (advance f rest eof true, 0)
    | _ =>
        let v := cond_Zopp neg (digits_value ds) in
        if v <? INT_MIN then (advance f rest eof true, INT_MIN)
        else if INT_MAX <? v then (advance f rest eof true, INT_MAX)
        else (advance f rest eof false, v)
    end
  else (f, n).

(** The characters [operator>>] accumulates for a [float] after the
    sign and the leading zeros: digits, one decimal point, and one
    exponent mark with its optional sign once a digit has been seen.
    [mant], [dec] and [sci] record that a digit, the point and the
    exponent mark have been seen.  The result is the accumulated field and
    the unread rest. *)
Fixpoint float_field (mant dec sci : bool) (l : list ascii)
  : list ascii * list ascii :=
  match l with
  | [] => ([], [])
  | c :: l' =>
      if isdigit c then
        let '(x, r) := float_field true dec sci l' in (c :: x, r)
      else if Ascii.eqb c "." && negb dec && negb sci then
        let '(x, r) := float_field mant true sci l' in (c :: x, r)
      else if (Ascii.eqb c "e" || Ascii.eqb c "E") && negb sci && mant then
        match l' with
        | s :: l'' =>
            if is_sign s then
              let '(x, r) := float_field mant dec true l'' in
              ("e"%char :: s :: x, r)
            else
              let '(x, r) := float_field mant dec true l' in
              ("e"%char :: x, r)
        | [] => (["e"%char], [])
        end
      else ([], l)
  end.

(** The whole accumulated field: sign, one zero for any run of leading
    zeros, then [float_field]. *)
Definition scan_float (l : list ascii) : list ascii * list ascii :=
  let '(s, l) :=
    match l with
    | c :: l' => if is_sign c then ([c], l') else ([], l)
    | [] => ([], l)
    end in
  let '(zs, l) := span is_zero_char l in
  let zero := match zs with [] => [] | _ => ["0"%char] end in
  let '(x, rest) := float_field (negb (bool_decide (zs = []))) false false l in
  (s ++ zero ++ x, rest).

(** [strtof] on an accumulated field, [None] unless the whole field is
    a decimal floating literal. *)
Definition strtof (x : list ascii) : option spec_float :=
  let '(neg, l) := scan_sign x in
  let '(ip, l) := span isdigit l in
  let '(fp, l) :=
    match l with
    | c :: l' => if Ascii.eqb c "." then span isdigit l' else ([], l)
    | [] => ([], l)
    end in
  let m := digits_value (ip ++ fp) in
  let k := Z.of_nat (length fp) in
  match ip ++ fp with
  | [] => None
  | _ =>
      match l with
      | [] => Some (Float32.of_decimal neg m (- k))
      | c :: l' =>
          if Ascii.eqb c "e" then
            let '(eneg, l'') := scan_sign l' in
            let '(ed, rest) := span isdigit l'' in
            match ed, rest with
            | _ :: _, [] =>
                Some (Float32.of_decimal neg m
                        (cond_Zopp eneg (digits_value ed) - k))
            | _, _ => None
            end
          else None
      end
  end.

Definition FLT_MAX : spec_float := SFmax_float Float32.prec Float32.emax.

(** [is >> x] for a [float]: a field that is no number gives 0 and
    [failbit], an overflow gives the largest finite value and [failbit];
    [eofbit] is set when the field reaches the end of the text.  The value
    delivered is always finite. *)
Definition extract_float (f : istream) (x : spec_float)
  : istream * spec_float :=
  let '(ok, f) := sentry false f in
  if ok then
    let '(field, rest) := scan_float (buf f) in
    let eof := bool_decide (rest = []) in
    match strtof field with
    | None => (advance f rest eof true, S754_zero false)
    | Some (S754_infinity s) =>
        (advance f rest eof true, if s then SFopp FLT_MAX else FLT_MAX)
    | Some v => (advance f rest eof false, v)
    end
  else (f, x).

End ios.

(** ** Exceptions *)

(** [class StudentException]: the only exception the program throws. *)
Record StudentException := { what : string }.

Inductive result (A : Type) : Type :=
| Ret (a : A)
| Throw (e : StudentException).
Arguments Ret {A} a.
Arguments Throw {A} e.

(** ** [class Student] *)

Record Student := {
  name : string;
  rollNo : Z;
  marks : spec_float
}.

Definition str_empty (s : string) : bool :=
  match s with EmptyString => true | String _ _ => false end.

(** [m < 0 || m > 100], the test of the constructor, of [setMarks] and of
    the two input dialogues. *)
Definition marks_rejected (m : spec_float) : bool :=
  Float32.ltb m (Float32.of_Z 0) || Float32.ltb (Float32.of_Z 100) m.

(** [Student(n, r, m)]: the constructor validates [r] and [m], not [n]. *)
Definition Student_new (n : string) (r : Z) (m : spec_float) : result Student :=
  if r <? 0 then Throw {| what := "Roll number cannot be negative" |}
  else if marks_rejected m
       then Throw {| what := "Marks must be between 0 and 100" |}
       else Ret {| name := n; rollNo := r; marks := m |}.

(** [Student s;] with the default arguments. *)
Definition Student_default : Student :=
  {| name := ""; rollNo := 0; marks := S754_zero false |}.

Definition setName (n : string) (s : Student) : result Student :=
  if str_empty n then Throw {| what := "Name cannot be empty" |}
  else Ret {| name := n; rollNo := rollNo s; marks := marks s |}.

Definition setRollNo (r : Z) (s : Student) : result Student :=
  if r <? 0 then Throw {| what := "Roll number cannot be negative" |}
  else Ret {| name := name s; rollNo := r; marks := marks s |}.

Definition setMarks (m : spec_float) (s : Student) : result Student :=
  if marks_rejected m then Throw {| what := "Marks must be between 0 and 100" |}
  else Ret {| name := name s; rollNo := rollNo s; marks := m |}.

(** [operator<<(ofstream&, const Student&)]: three lines. *)
Definition write_Student (s : Student) : list ascii :=
  text (name s) ++ [newline]
    ++ ios.put_int (rollNo s) ++ [newline]
    ++ ios.put_float (marks s) ++ [newline].

(** The [try] block of [operator>>(ifstream&, Student&)]: the three
    fields are stored into [s] as they are read, with no validation. *)
Definition read_fields (ifs : ios.istream) (s : Student)
  : result (ios.istream * Student) :=
  let '(ifs, n) := ios.getline ifs (name s) in
  if ios.fail ifs then Throw {| what := "Failed to read name from file" |}
  else
    let '(ifs, r) := ios.extract_int ifs (rollNo s) in
    if ios.fail ifs
    then Throw {| what := "Failed to read roll number from file" |}
    else
      let '(ifs, m) := ios.extract_float ifs (marks s) in
      if ios.fail ifs then Throw {| what := "Failed to read marks from file" |}
      else Ret (ios.ignore ifs, {| name := n; rollNo := r; marks := m |}).

(** [operator>>(ifstream&, Student&)]: any failure is rethrown as
    corrupted data. *)
Definition read_Student (ifs : ios.istream) (s : Student)
  : result (ios.istream * Student) :=
  match read_fields ifs s with
  | Ret r => Ret r
  | Throw _ => Throw {| what := "Corrupted data in file" |}
  end.

(** ** The program state and its monad *)

(** What is inserted into [cout].  Layout manipulators ([left], [setw],
    [fixed], [setprecision]) only change how an item is rendered and are not
    recorded; [Endl] stands for [endl] and for a newline in a literal. *)
Inductive out_item :=
| Str (s : string)
| Num (z : Z)
| Flt (f : spec_float)
| Endl.

(** The member [students], the console output, and the file
    [students.dat]: its content when it exists, and whether it can be
    created for writing. *)
Record world := {
  students : list Student;
  cout : list out_item;
  disk : option (list ascii);
  writable : bool
}.

(** A computation that may throw; what it did to the state before
    throwing stays done. *)
Definition M (A : Type) : Type := world -> result A * world.

#[export] Instance M_ret : MRet M := fun A a w => (Ret a, w).
#[export] Instance M_bind : MBind M := fun A B f m w =>
  match m w with
  | (Ret a, w') => f a w'
  | (Throw e, w') => (Throw e, w')
  end.

Definition throw {A} (msg : string) : M A :=
  fun w => (Throw {| what := msg |}, w).

(** [if (c) throw StudentException(msg);] *)
Definition throw_if (c : bool) (msg : string) : M unit :=
  if c then throw msg else mret tt.

Definition lift {A} (r : result A) : M A := fun w => (r, w).

(** [try { body } catch (const StudentException& e) { handler }] *)
Definition try_catch {A} (body : M A) (handler : StudentException -> M A) : M A :=
  fun w =>
    match body w with
    | (Ret a, w') => (Ret a, w')
    | (Throw e, w') => handler e w'
    end.

Definition print (items : list out_item) : M unit :=
  fun w => (Ret tt, {| students := students w; cout := cout w ++ items;
                       disk := disk w; writable := writable w |}).

Definition get_students : M (list Student) := fun w => (Ret (students w), w).

Definition set_students (l : list Student) : M unit :=
  fun w => (Ret tt, {| students := l; cout := cout w;
                       disk := disk w; writable := writable w |}).

Definition set_disk (content : list ascii) : M unit :=
  fun w => (Ret tt, {| students := students w; cout := cout w;
                       disk := Some content; writable := writable w |}).

(** [students.push_back(s)] *)
Definition push_back (s : Student) : M unit :=
  l ← get_students; set_students (l ++ [s]).

(** [students.size()] *)
Definition size : M Z := l ← get_students; mret (Z.of_nat (length l)).

(** [if (!(cin >> x)) { clearCin(); throw StudentException(msg); }]: the
    console extraction is given by what it delivers, a value or a failure. *)
Definition cin_read {A} (x : option A) (msg : string) : M A :=
  match x with
  | Some a => mret a
  | None => throw msg
  end.

(** ** [class StudentManagementSystem] *)

(** The loop [while (file >> s) students.push_back(s);].  It ends by an
    exception of [operator>>] or with the stream in a failed state, which
    is returned; [None] only when the fuel runs out. *)
Fixpoint load_loop (fuel : nat) (file : ios.istream) (s : Student)
  : M (option ios.istream) :=
  match fuel with
  | O => mret None
  | S k =>
      '(file, s) ← lift (read_Student file s);
      if ios.fail file then mret (Some file)
      else push_back s ;; load_loop k file s
  end.

Definition loadFromFile : M unit :=
  fun w =>
    match disk w with
    | None => print [Str "No existing data file found. Starting fresh."; Endl] w
    | Some content =>
        try_catch
          (r ← load_loop (S (length content)) (ios.open content) Student_default;
           match r with
           | Some file =>
               throw_if (ios.bad file) "Error reading from file" ;;
               n ← size;
               print [Str "Data loaded successfully. "; Num n;
                      Str " records found."; Endl]
           | None => mret tt
           end)
          (fun e =>
             print [Str "Warning: "; Str (what e);
                    Str ". Starting with empty database."; Endl] ;;
             set_students [])
          w
    end.

(** Once the file is open every write succeeds, so the test
    [file.fail()] inside the loop never fires. *)
Definition saveToFile : M unit :=
  fun w =>
    if writable w then
      (l ← get_students;
       set_disk (concat (map write_Student l)) ;;
       n ← size;
       print [Str "Data saved successfully. "; Num n;
              Str " records stored."; Endl]) w
    else throw "Cannot create data file" w.

(** The loop of [findStudentIndex], from position [i] on. *)
Fixpoint findStudentIndex_from (i : Z) (l : list Student) (r : Z) : Z :=
  match l with
  | [] => -1
  | s :: l' => if rollNo s =? r then i else findStudentIndex_from (i + 1) l' r
  end.

Definition findStudentIndex (r : Z) : M Z :=
  l ← get_students; mret (findStudentIndex_from 0 l r).

(** [students[index].f(...)] for a setter [f].  The index always comes
    from [findStudentIndex]; outside the vector (undefined in C++) nothing
    is done. *)
Definition at_index (index : Z) (f : Student -> result Student) : M unit :=
  l ← get_students;
  match l !! Z.to_nat index with
  | Some s => s' ← lift (f s); set_students (<[Z.to_nat index := s']> l)
  | None => mret tt
  end.

(** The constructor: a fresh, empty vector, then [loadFromFile]. *)
Definition StudentManagementSystem (file : option (list ascii)) (w : bool)
  : world :=
  snd (try_catch loadFromFile
         (fun e => print [Str "Initialization error: "; Str (what e); Endl])
         {| students := []; cout := []; disk := file; writable := w |}).

(** The destructor. *)
Definition StudentManagementSystem_destroy (w : world) : world :=
  snd (try_catch saveToFile
         (fun e => print [Str "Shutdown error: "; Str (what e); Endl]) w).

(** *** The menu operations

    Each takes what the console reads of its dialogue deliver: the line
    [getline] stores, and for [cin >> x] the value or [None] when the
    extraction fails.  [_try] is the body of the [try] block; the operation
    itself adds the handler, which prints the message. *)

Definition report (e : StudentException) : M unit :=
  print [Str "Error: "; Str (what e); Endl].

Definition addStudent_try (name_in : string) (rollNo_in : option Z)
    (marks_in : option spec_float) : M unit :=
  print [Endl; Str "Enter Student Details:"; Endl; Str "Name: "] ;;
  throw_if (str_empty name_in) "Name cannot be empty" ;;
  print [Str "Roll No: "] ;;
  r ← cin_read rollNo_in "Invalid input for roll number";
  throw_if (r <? 0) "Roll number cannot be negative" ;;
  print [Str "Marks: "] ;;
  m ← cin_read marks_in "Invalid input for marks";
  throw_if (marks_rejected m) "Marks must be between 0-100" ;;
  index ← findStudentIndex r;
  throw_if (negb (index =? -1)) "Student with this Roll No already exists" ;;
  newStudent ← lift (Student_new name_in r m);
  push_back newStudent ;;
  print [Str "Student added successfully!"; Endl].

Definition addStudent (name_in : string) (rollNo_in : option Z)
    (marks_in : option spec_float) : M unit :=
  try_catch (addStudent_try name_in rollNo_in marks_in) report.

(** [Student::display] *)
Definition display (s : Student) : list out_item :=
  [Str (name s); Num (rollNo s); Flt (marks s); Endl].

Definition table_header : list out_item :=
  [Str "Name"; Str "Roll No"; Str "Marks"; Endl;
   Str "----------------------------------------"; Endl].

Definition displayAll : M unit :=
  l ← get_students;
  match l with
  | [] => print [Str "No students found!"; Endl]
  | _ => print (Endl :: table_header ++ concat (map display l))
  end.

Definition searchStudent_try (rollNo_in : option Z) : M unit :=
  print [Str "Enter Roll No to search: "] ;;
  r ← cin_read rollNo_in "Invalid input for roll number";
  index ← findStudentIndex r;
  throw_if (index =? -1) "Student not found" ;;
  l ← get_students;
  print ([Endl; Str "Student Found:"; Endl] ++ table_header
           ++ from_option display [] (l !! Z.to_nat index)).

Definition searchStudent (rollNo_in : option Z) : M unit :=
  try_catch (searchStudent_try rollNo_in) report.

Definition updateStudent_try (rollNo_in : option Z) (name_in : string)
    (marks_in : option spec_float) : M unit :=
  print [Str "Enter Roll No to update: "] ;;
  r ← cin_read rollNo_in "Invalid input for roll number";
  index ← findStudentIndex r;
  throw_if (index =? -1) "Student not found" ;;
  print [Str "Enter new Name: "] ;;
  throw_if (str_empty name_in) "Name cannot be empty" ;;
  print [Str "Enter new Marks: "] ;;
  m ← cin_read marks_in "Invalid input for marks";
  throw_if (marks_rejected m) "Marks must be between 0-100" ;;
  at_index index (setName name_in) ;;
  at_index index (setMarks m) ;;
  print [Str "Student details updated successfully!"; Endl].

Definition updateStudent (rollNo_in : option Z) (name_in : string)
    (marks_in : option spec_float) : M unit :=
  try_catch (updateStudent_try rollNo_in name_in marks_in) report.

Definition deleteStudent_try (rollNo_in : option Z) : M unit :=
  print [Str "Enter Roll No to delete: "] ;;
  r ← cin_read rollNo_in "Invalid input for roll number";
  index ← findStudentIndex r;
  throw_if (index =? -1) "Student not found" ;;
  l ← get_students;
  set_students (delete (Z.to_nat index) l) ;;
  print [Str "Student deleted successfully!"; Endl].

Definition deleteStudent (rollNo_in : option Z) : M unit :=
  try_catch (deleteStudent_try rollNo_in) report.

(** One round of the loop of [showStatistics]. *)
Definition stats_step (acc : spec_float * spec_float * spec_float)
    (s : Student) : spec_float * spec_float * spec_float :=
  let '(total, maxMarks, minMarks) := acc in
  (Float32.add total (marks s),
   if Float32.ltb maxMarks (marks s) then marks s else maxMarks,
   if Float32.ltb (marks s) minMarks then marks s else minMarks).

Definition showStatistics : M unit :=
  l ← get_students;
  match l with
  | [] => print [Str "No students found!"; Endl]
  | s0 :: _ =>
      let '(total, maxMarks, minMarks) :=
        fold_left stats_step l (Float32.of_Z 0, marks s0, marks s0) in
      n ← size;
      print [Endl; Str "--- Statistics ---"; Endl;
             Str "Total Students: "; Num n; Endl;
             Str "Average Marks: "; Flt (Float32.div total (Float32.of_Z n)); Endl;
             Str "Highest Marks: "; Flt maxMarks; Endl;
             Str "Lowest Marks: "; Flt minMarks; Endl]
  end.

(** *** Runs of the program *)

(** One choice of the main menu together with what the user types. *)
Inductive command :=
| Add (name_in : string) (rollNo_in : option Z) (marks_in : option spec_float)
| DisplayAll
| Search (rollNo_in : option Z)
| Update (rollNo_in : option Z) (name_in : string) (marks_in : option spec_float)
| Delete (rollNo_in : option Z)
| Statistics.

(** The [switch] of [main]. *)
Definition run_command (c : command) : M unit :=
  match c with
  | Add n r m => addStudent n r m
  | DisplayAll => displayAll
  | Search r => searchStudent r
  | Update r n m => updateStudent r n m
  | Delete r => deleteStudent r
  | Statistics => showStatistics
  end.

(** The state after a session: construction, then the commands in turn. *)
Definition session (file : option (list ascii)) (cs : list command) : world :=
  fold_left (fun w c => snd (run_command c w)) cs
            (StudentManagementSystem file true).

(** ** Vocabulary of the properties *)

(** A character that can belong to the text of a number. *)
Definition number_char (c : ascii) : bool :=
  isdigit c || ios.is_sign c || Ascii.eqb c "." || Ascii.eqb c "e"
    || Ascii.eqb c "E".

(** The file does not end in the middle of a number: it is empty, or its
    last character (a newline, say) cannot belong to one. *)
Definition ends_outside_number (l : list ascii) : Prop :=
  forall c, last l = Some c -> number_char c = false.

Definition corrupted : StudentException := {| what := "Corrupted data in file" |}.

(** The currently loaded records replaced by [l]. *)
Definition with_students (l : list Student) (w : world) : world :=
  {| students := l; cout := cout w; disk := disk w; writable := writable w |}.

Definition with_cout (items : list out_item) (w : world) : world :=
  {| students := students w; cout := cout w ++ items;
     disk := disk w; writable := writable w |}.

(** Some record of the file fails to parse: after zero or more records
    that are read, reading the name, the roll number or the marks throws. *)
Inductive parse_failure : ios.istream -> Student -> Prop :=
| parse_failure_here ifs s e :
    read_fields ifs s = Throw e -> parse_failure ifs s
| parse_failure_later ifs s ifs' s' :
    read_fields ifs s = Ret (ifs', s') -> ios.fail ifs' = false ->
    parse_failure ifs' s' -> parse_failure ifs s.

Definition warning : list out_item :=
  [Str "Warning: "; Str "Corrupted data in file";
   Str ". Starting with empty database."; Endl].

Definition rollNos (w : world) : list Z := map rollNo (students w).

Definition not_found : StudentException := {| what := "Student not found" |}.

(** The constraint of the data model on marks: a value in [[0,100]]. *)
Definition marks_in_range (m : spec_float) : bool :=
  Float32.leb (Float32.of_Z 0) m && Float32.leb m (Float32.of_Z 100).

(** Marks strictly below 0 or strictly above 100. *)
Definition marks_outside (m : spec_float) : Prop :=
  Float32.ltb m (Float32.of_Z 0) = true \/
  Float32.ltb (Float32.of_Z 100) m = true.

(** The floats nearest to 88.5, -0.01 and 100.01, and the float 42. *)
Definition f32_88_5 : spec_float := Float32.of_decimal false 885 (-1).
Definition f32_minus_0_01 : spec_float := Float32.of_decimal true 1 (-2).
Definition f32_100_01 : spec_float := Float32.of_decimal false 10001 (-2).
Definition f32_42 : spec_float := Float32.of_Z 42.

(** The store of the running example: Alice (1, 88.5) and Bob (2, 42). *)
Definition two_students : world :=
  session None [Add "Alice" (Some 1) (Some f32_88_5);
                Add "Bob" (Some 2) (Some f32_42)].

(** Lines joined by newlines, the last one left unterminated. *)
Fixpoint join_lines (ls : list string) : list ascii :=
  match ls with
  | [] => []
  | [s] => text s
  | s :: ls' => text s ++ newline :: join_lines ls'
  end.

(** A file of three records, two of them with roll number 1, whose last
    line has no newline. *)
Definition duplicates_file : list ascii :=
  join_lines ["A"; "1"; "5"; "B"; "1"; "6"; "C"; "2"; "7"]%string.

(** The sum of a list of floats, accumulated from the left in single
    precision, and the mean computed from it. *)
Definition float_sum (l : list spec_float) : spec_float :=
  fold_left Float32.add l (Float32.of_Z 0).

Definition float_mean (l : list spec_float) : spec_float :=
  Float32.div (float_sum l) (Float32.of_Z (Z.of_nat (length l))).

Definition is_maximum (x : spec_float) (l : list spec_float) : Prop :=
  (x ∈ l) /\ forall y, (y ∈ l) -> Float32.leb y x = true.

Definition is_minimum (x : spec_float) (l : list spec_float) : Prop :=
  (x ∈ l) /\ forall y, (y ∈ l) -> Float32.leb x y = true.

Definition float_max (a x : spec_float) : spec_float :=
  if Float32.ltb a x then x else a.
Definition float_min (a x : spec_float) : spec_float :=
  if Float32.ltb x a then x else a.

(** What [showStatistics] prints for a store that is not empty. *)
Definition statistics_report (n : Z) (avg mx mn : spec_float) : list out_item :=
  [Endl; Str "--- Statistics ---"; Endl;
   Str "Total Students: "; Num n; Endl;
   Str "Average Marks: "; Flt avg; Endl;
   Str "Highest Marks: "; Flt mx; Endl;
   Str "Lowest Marks: "; Flt mn; Endl].

(** The store of the statistics example: A (1, 50), B (2, 70), C (3, 90). *)
Definition three_students : list Student :=
  [{| name := "A"; rollNo := 1; marks := Float32.of_Z 50 |};
   {| name := "B"; rollNo := 2; marks := Float32.of_Z 70 |};
   {| name := "C"; rollNo := 3; marks := Float32.of_Z 90 |}].

(** The file the session starts from is absent, or does not end inside a
    number (it is empty, or its last line is terminated). *)
Definition starts_clean (file : option (list ascii)) : Prop :=
  match file with
  | None => True
  | Some content => ends_outside_number content
  end.


(** What [save] writes for the running example. *)
Definition two_students_file : list ascii :=
  join_lines ["Alice"; "1"; "88.5"; "Bob"; "2"; "42"; ""]%string.

(** Two complete records, the last line without its newline. *)
Definition unterminated_file : list ascii :=
  join_lines ["A"; "1"; "5"; "B"; "2"; "6"]%string.

(** The sum of a list of whole numbers. *)
Definition whole_sum (zs : list Z) : Z := fold_right Z.add 0 zs.

(** The float of a whole number [0 < N < 2^24], which is exact. *)
Definition exact_float (N : Z) : spec_float :=
  S754_finite false (Z.to_pos (N * 2 ^ (23 - Z.log2 N))) (Z.log2 N - 23).

(** *** Malformed files *)










(** ** [main] and the vocabulary of the further properties *)

(** What the user types in one round of the menu: the choice, and the
    values the dialogue of the chosen operation reads.  The choice is [None]
    when what is typed cannot be read as an [int]. *)
Record round := {
  choice_in : option Z;
  name_typed : string;
  rollNo_typed : option Z;
  marks_typed : option spec_float
}.

Definition menu_text : list out_item :=
  [Endl; Str "Main Menu:"; Endl;
   Str "1. Add Student"; Endl;
   Str "2. Display All Students"; Endl;
   Str "3. Search Student"; Endl;
   Str "4. Update Student"; Endl;
   Str "5. Delete Student"; Endl;
   Str "6. Show Statistics"; Endl;
   Str "7. Exit"; Endl;
   Str "Enter your choice (1-7): "].

(** The body of the [do] loop of [main]. *)
Definition menu_round (rd : round) : M unit :=
  print menu_text ;;
  try_catch
    (choice ← cin_read (choice_in rd) "Invalid menu choice";
     match choice with
     | 1 => addStudent (name_typed rd) (rollNo_typed rd) (marks_typed rd)
     | 2 => displayAll
     | 3 => searchStudent (rollNo_typed rd)
     | 4 => updateStudent (rollNo_typed rd) (name_typed rd) (marks_typed rd)
     | 5 => deleteStudent (rollNo_typed rd)
     | 6 => showStatistics
     | 7 => print [Str "Exiting... Thank you for using the system!"; Endl]
     | _ => print [Str "Invalid choice! Please enter 1-7."; Endl]
     end)
    (fun e => print [Str "System Error: "; Str (what e); Endl]).

(** The loop [do { ... } while (choice != 7)] over the rounds the user
    types: the state when 7 is chosen, [None] when the input ends before that
    (the program then has no way out of the loop).  A choice that cannot be
    read is no way out either: the failed extraction stores 0 in [choice], or
    the nearest bound of [int], the handler prints its message, and the loop
    goes on with the next round. *)
Fixpoint main_loop (script : list round) (w : world) : option world :=
  match script with
  | [] => None
  | rd :: script' =>
      let w' := snd (menu_round rd w) in
      match choice_in rd with
      | Some 7 => Some w'
      | _ => main_loop script' w'
      end
  end.

(** [main]: construction, the banner, the loop, and the destructor at
    [return 0]. *)
Definition main (file : option (list ascii)) (can_write : bool)
    (script : list round) : option world :=
  StudentManagementSystem_destroy <$>
    main_loop script
      (snd (print [Str "=== STUDENT MANAGEMENT SYSTEM ==="; Endl]
              (StudentManagementSystem file can_write))).

(** A round in which the choice cannot be read, and the round that exits. *)
Definition unreadable_round : round :=
  {| choice_in := None; name_typed := "";
     rollNo_typed := None; marks_typed := None |}.

Definition exit_round : round :=
  {| choice_in := Some 7; name_typed := "";
     rollNo_typed := None; marks_typed := None |}.

(** The operation a round selects, if any. *)
Definition command_of (rd : round) : option command :=
  match choice_in rd with
  | Some 1 => Some (Add (name_typed rd) (rollNo_typed rd) (marks_typed rd))
  | Some 2 => Some DisplayAll
  | Some 3 => Some (Search (rollNo_typed rd))
  | Some 4 => Some (Update (rollNo_typed rd) (name_typed rd) (marks_typed rd))
  | Some 5 => Some (Delete (rollNo_typed rd))
  | Some 6 => Some Statistics
  | _ => None
  end.

(** The commands of the rounds before the first choice of 7. *)
Fixpoint commands_before_exit (script : list round) : list command :=
  match script with
  | [] => []
  | rd :: script' =>
      match choice_in rd with
      | Some 7 => []
      | _ => match command_of rd with
             | Some c => c :: commands_before_exit script'
             | None => commands_before_exit script'
             end
      end
  end.

(** The constraints that [addStudent] and [updateStudent] check. *)
Definition record_valid (s : Student) : Prop :=
  name s <> "" /\ 0 <= rollNo s /\ marks_rejected (marks s) = false.

(** A stream at the end of its text after a successful read. *)
Definition at_eof : ios.istream :=
  {| ios.buf := []; ios.eofbit := true;
     ios.failbit := false; ios.badbit := false |}.

(** The text written for [m] reads back as [m]. *)
Definition marks_read_back (m : spec_float) : Prop :=
  ios.extract_float (ios.open (ios.put_float m)) (S754_zero false) = (at_eof, m).

(** A record that its three lines can carry: no newline in the name, a
    roll number that is an [int], marks that read back. *)
Definition record_storable (s : Student) : Prop :=
  (newline ∉ text (name s)) /\
  ios.INT_MIN <= rollNo s <= ios.INT_MAX /\
  marks_read_back (marks s).

(** The three lines of a record without the last newline. *)
Definition write_unterminated (s : Student) : list ascii :=
  text (name s) ++ [newline]
    ++ ios.put_int (rollNo s) ++ [newline]
    ++ ios.put_float (marks s).

(** A call of one of the setters of [Student]. *)
Inductive setter :=
| SetName (n : string)
| SetRollNo (r : Z)
| SetMarks (m : spec_float).

Definition call (c : setter) (s : Student) : result Student :=
  match c with
  | SetName n => setName n s
  | SetRollNo r => setRollNo r s
  | SetMarks m => setMarks m s
  end.

(** The object after the call: a setter that throws does so before it
    assigns, so the object is as it was. *)
Definition after_call (s : Student) (c : setter) : Student :=
  match call c s with
  | Ret s' => s'
  | Throw _ => s
  end.

(** [w'] differs from [w] at most in the records and in output that was
    appended: the file and its permission are the same. *)
Definition extends (w w' : world) : Prop :=
  (exists items, cout w' = cout w ++ items) /\
  disk w' = disk w /\ writable w' = writable w.

(** A computation that, whether it returns or throws, only prints and
    changes the records. *)
Definition tame {A} (m : M A) : Prop := forall w, extends w (snd (m w)).

(** * Properties *)

(** ** Text and stream lemmas *)

Lemma span_app p l : fst (span p l) ++ snd (span p l) = l.
Proof.
  induction l as [|c l IH]; simpl; [done|].
  destruct (p c); [|done].
  destruct (span p l) as [a b]; simpl in *. by rewrite IH.
Qed.

Lemma span_prefix p l : Forall (fun c => p c = true) (fst (span p l)).
Proof.
  induction l as [|c l IH]; simpl; [constructor|].
  destruct (p c) eqn:Hc; [|constructor].
  destruct (span p l) as [a b]; simpl in *. by constructor.
Qed.

Lemma span_eq p l a b :
  span p l = (a, b) -> l = a ++ b /\ Forall (fun c => p c = true) a.
Proof.
  intros H. split.
  - by rewrite <- (span_app p l), H.
  - pose proof (span_prefix p l) as Hp. by rewrite H in Hp.
Qed.

Lemma ends_outside_number_suffix pre l :
  ends_outside_number (pre ++ l) -> ends_outside_number l.
Proof.
  intros H c Hc. apply H. rewrite last_app, Hc. done.
Qed.

Lemma ends_outside_number_all l :
  l <> [] -> Forall (fun c => number_char c = true) l ->
  ~ ends_outside_number l.
Proof.
  intros Hne Hall Hend.
  destruct (last l) as [c|] eqn:Hl.
  - pose proof (Hend c Hl) as Hc.
    apply last_Some in Hl as [l' ->].
    rewrite Forall_app, Forall_singleton in Hall.
    destruct Hall as [_ Hall]. congruence.
  - apply last_None in Hl. done.
Qed.

Section Streams.
Import ios.

Lemma good_not_fail f : good f = true -> fail f = false.
Proof.
  unfold good, fail. destruct (eofbit f), (failbit f), (badbit f); done.
Qed.

Lemma good_bits f :
  good f = true -> eofbit f = false /\ failbit f = false /\ badbit f = false.
Proof.
  unfold good. destruct (eofbit f), (failbit f), (badbit f); done.
Qed.

Lemma sentry_ok b f f' :
  sentry b f = (true, f') ->
  good f = true /\ good f' = true /\
  exists ws, buf f = ws ++ buf f' /\ Forall (fun c => isspace c = true) ws.
Proof.
  unfold sentry. destruct (good f) eqn:Hg; [|done].
  destruct b.
  - intros [= <-]. repeat split; [done|]. exists []. by split.
  - destruct (span isspace (buf f)) as [ws rest] eqn:Hs. simpl.
    apply span_eq in Hs as [Hbuf Hws].
    destruct rest as [|c rest]; [done|]. intros [= <-].
    apply good_bits in Hg as (He & Hf & Hb).
    repeat split; [|by exists ws].
    unfold good, advance; simpl. by rewrite He, Hf, Hb.
Qed.

Lemma sentry_failed b f f' : sentry b f = (false, f') -> fail f' = true.
Proof.
  unfold sentry. destruct (good f); [destruct b; [done|]|].
  - destruct (snd (span isspace (buf f))); [|done].
    intros [= <-]. unfold fail; simpl. by rewrite orb_true_r.
  - intros [= <-]. unfold fail; simpl. by rewrite orb_true_r.
Qed.

Lemma fail_advance f rest e x :
  fail (advance f rest e x) = fail f || x.
Proof.
  unfold fail, advance; simpl.
  destruct (failbit f), (badbit f), x; done.
Qed.

Lemma sentry_noskip f f' :
  sentry true f = (true, f') -> f' = f /\ good f = true.
Proof. unfold sentry. destruct (good f); [|done]. by intros [= <-]. Qed.

Lemma getline_ok f str f' n :
  getline f str = (f', n) -> fail f' = false ->
  exists pre, pre <> [] /\ buf f = pre ++ buf f'.
Proof.
  unfold getline. destruct (sentry true f) as [ok f1] eqn:Hs.
  destruct ok.
  - apply sentry_noskip in Hs as [-> Hg].
    destruct (span _ (buf f)) as [line rest] eqn:Hsp.
    apply span_eq in Hsp as [Hl _].
    destruct rest as [|c rest].
    + intros [= <- _]. rewrite fail_advance, (good_not_fail _ Hg). simpl.
      intros Hne. apply bool_decide_eq_false in Hne.
      exists line. split; [done|]. by rewrite Hl.
    + intros [= <- _] _. exists (line ++ [c]). split.
      * by destruct line.
      * simpl. by rewrite Hl, <- app_assoc.
  - intros [= <- _] Hf. apply sentry_failed in Hs. congruence.
Qed.

Lemma ignore_suffix f : buf (ignore f) `suffix_of` buf f.
Proof.
  unfold ignore. destruct (sentry true f) as [ok f1] eqn:Hs.
  destruct ok.
  - apply sentry_noskip in Hs as [-> _].
    destruct (buf f) as [|c rest] eqn:Hb; simpl.
    + by exists [].
    + by exists [c].
  - unfold sentry in Hs. destruct (good f); [done|].
    injection Hs as <-. by exists [].
Qed.

Lemma ignore_not_eof f :
  fail f = false -> eofbit f = false -> fail (ignore f) = false.
Proof.
  intros Hf He. unfold ignore, sentry, good.
  unfold fail in Hf. apply orb_false_elim in Hf as [Hf Hb].
  rewrite He, Hf, Hb. simpl.
  destruct (buf f); rewrite fail_advance; unfold fail; by rewrite Hf, Hb.
Qed.

Lemma extract_int_ok f n f' v :
  extract_int f n = (f', v) -> fail f' = false ->
  buf f' `suffix_of` buf f.
Proof.
  unfold extract_int. destruct (sentry false f) as [ok f1] eqn:Hs.
  destruct ok.
  - apply sentry_ok in Hs as (_ & _ & ws & -> & _).
    destruct (scan_sign (buf f1)) as [neg l] eqn:Hsg.
    destruct (span isdigit l) as [ds rest] eqn:Hsp.
    apply span_eq in Hsp as [Hl _].
    assert (rest `suffix_of` ws ++ buf f1) as Hsuf.
    { apply suffix_app_r. trans l; [rewrite Hl; by apply suffix_app_r|].
      unfold scan_sign in Hsg.
      destruct (buf f1) as [|c l1]; [by injection Hsg as _ <-|].
      destruct (is_sign c); injection Hsg as _ <-; [|done].
      by apply suffix_cons_r. }
    destruct ds; [|repeat case_match]; by intros [= <- _].
  - intros [= <- _] Hf. apply sentry_failed in Hs. congruence.
Qed.

Lemma number_char_digit c : isdigit c = true -> number_char c = true.
Proof. unfold number_char. by intros ->. Qed.

Lemma number_char_sign c : is_sign c = true -> number_char c = true.
Proof. unfold number_char. intros ->. by rewrite orb_true_r. Qed.

Lemma float_field_consumed n : forall l mant dec sci x r,
  (length l <= n)%nat ->
  float_field mant dec sci l = (x, r) ->
  exists pre, l = pre ++ r /\ Forall (fun c => number_char c = true) pre /\
              (pre = [] -> x = []).
Proof.
  induction n as [|n IH]; intros l mant dec sci x r Hlen.
  - destruct l; [|simpl in Hlen; lia].
    intros [= <- <-]. by exists [].
  - destruct l as [|c l']; [intros [= <- <-]; by exists []|].
    simpl in Hlen. simpl.
    destruct (isdigit c) eqn:Hd.
    { destruct (float_field true dec sci l') as [x' r'] eqn:Hf.
      intros [= <- <-]. apply IH in Hf as (pre & -> & Hall & _); [|lia].
      exists (c :: pre). split_and!; [done| |done].
      constructor; [by apply number_char_digit|done]. }
    destruct (Ascii.eqb c "." && negb dec && negb sci) eqn:Hp.
    { destruct (float_field mant true sci l') as [x' r'] eqn:Hf.
      intros [= <- <-]. apply IH in Hf as (pre & -> & Hall & _); [|lia].
      exists (c :: pre). split_and!; [done| |done].
      constructor; [|done]. unfold number_char.
      destruct (Ascii.eqb c "."); [|done]. by rewrite !orb_true_r. }
    destruct ((Ascii.eqb c "e" || Ascii.eqb c "E") && negb sci && mant) eqn:He;
      [|intros [= <- <-]; by exists []].
    assert (number_char c = true) as Hc.
    { unfold number_char.
      destruct (Ascii.eqb c "e"), (Ascii.eqb c "E"); try done;
        by rewrite ?orb_true_r. }
    destruct l' as [|s l'']; [intros [= <- <-]; exists [c]; by split_and!; [|constructor|]|].
    simpl in Hlen.
    destruct (is_sign s) eqn:Hs.
    + destruct (float_field mant dec true l'') as [x' r'] eqn:Hf.
      intros [= <- <-]. apply IH in Hf as (pre & -> & Hall & _); [|lia].
      exists (c :: s :: pre). split_and!; [done| |done].
      constructor; [done|]. constructor; [by apply number_char_sign|done].
    + destruct (float_field mant dec true (s :: l'')) as [x' r'] eqn:Hf.
      intros [= <- <-]. apply IH in Hf as (pre & Heq & Hall & _);
        [|simpl; lia].
      exists (c :: pre). split_and!; [by rewrite Heq| |done].
      by constructor.
Qed.

Lemma scan_float_consumed l field rest :
  scan_float l = (field, rest) ->
  exists pre, l = pre ++ rest /\ Forall (fun c => number_char c = true) pre /\
              (pre = [] -> field = []).
Proof.
  unfold scan_float.
  set (sl := match l with
             | c :: l' => if is_sign c then ([c], l') else ([], l)
             | [] => ([], l)
             end).
  assert (l = fst sl ++ snd sl /\
          Forall (fun c => number_char c = true) (fst sl)) as [Hl Hs].
  { subst sl. destruct l as [|c l']; [by split|].
    destruct (is_sign c) eqn:Hc; simpl; split; try done.
    constructor; [by apply number_char_sign|done]. }
  destruct sl as [s l1]. simpl in *.
  destruct (span is_zero_char l1) as [zs l2] eqn:Hz.
  apply span_eq in Hz as [-> Hzs].
  destruct (float_field _ false false l2) as [x r] eqn:Hf.
  apply (float_field_consumed (length l2)) in Hf as (pre & -> & Hall & Hx);
    [|done].
  intros [= <- <-]. exists (s ++ zs ++ pre).
  split_and!.
  - by rewrite Hl, <- !app_assoc.
  - rewrite !Forall_app. split_and!; [done| |done].
    eapply Forall_impl; [exact Hzs|]. intros c Hc. simpl in Hc.
    unfold is_zero_char in Hc. apply Ascii.eqb_eq in Hc as ->. done.
  - intros Hnil. apply app_eq_nil in Hnil as [-> Hnil].
    apply app_eq_nil in Hnil as [-> ->]. by rewrite Hx.
Qed.

Lemma extract_float_ok f x f' v :
  extract_float f x = (f', v) -> fail f' = false ->
  exists ws pre,
    buf f = ws ++ pre ++ buf f' /\ pre <> [] /\
    Forall (fun c => number_char c = true) pre /\
    eofbit f' = bool_decide (buf f' = []) /\ fail f' = false.
Proof.
  unfold extract_float. destruct (sentry false f) as [ok f1] eqn:Hs.
  destruct ok.
  - apply sentry_ok in Hs as (_ & Hg & ws & Hbuf & _).
    destruct (scan_float (buf f1)) as [field rest] eqn:Hsc.
    apply scan_float_consumed in Hsc as (pre & Hpre & Hall & Hnil).
    pose proof (good_bits _ Hg) as (He & Hf & Hb).
    assert (strtof [] = None) as Hempty by done.
    destruct (strtof field) as [v'|] eqn:Hv.
    + assert (pre <> []) as Hne.
      { intros ->. rewrite Hnil in Hv; [|done]. congruence. }
      assert (forall s : spec_float,
                (advance f1 rest (bool_decide (rest = [])) false, s) = (f', v) ->
                fail f' = false ->
                exists ws pre, buf f = ws ++ pre ++ buf f' /\ pre <> [] /\
                  Forall (fun c => number_char c = true) pre /\
                  eofbit f' = bool_decide (buf f' = []) /\ fail f' = false)
        as Hgoal.
      { intros s [= <- _] Hfail. exists ws, pre. simpl.
        rewrite Hbuf, Hpre, He. by split_and!. }
      destruct v' as [s|s| |s m e]; try apply Hgoal.
      intros [= <- _]. rewrite fail_advance, orb_true_r. done.
    + intros [= <- _]. rewrite fail_advance, orb_true_r. done.
  - intros [= <- _] Hf. apply sentry_failed in Hs. congruence.
Qed.

End Streams.

(** ** The stream model at work *)

Example put_float_examples :
  ios.put_float f32_88_5 = text "88.5" /\
  ios.put_float f32_42 = text "42" /\
  ios.put_float (Float32.of_Z 100) = text "100" /\
  ios.put_float f32_minus_0_01 = text "-0.01" /\
  ios.put_float (Float32.of_decimal false 1 (-5)) = text "1e-05" /\
  ios.put_float (Float32.of_Z 1234567) = text "1.23457e+06".
Proof. split_and!; vm_compute; reflexivity. Qed.

Example extract_float_examples :
  ios.extract_float (ios.open (text "88.5" ++ [newline])) (S754_zero false)
    = (ios.open [newline], f32_88_5) /\
  ios.extract_float (ios.open (text "  42")) (S754_zero false)
    = ({| ios.buf := []; ios.eofbit := true;
          ios.failbit := false; ios.badbit := false |}, f32_42) /\
  ios.fail (fst (ios.extract_float (ios.open (text "abc")) (S754_zero false)))
    = true /\
  ios.fail (fst (ios.extract_float (ios.open (text "1e39")) (S754_zero false)))
    = true.
Proof. split_and!; vm_compute; reflexivity. Qed.

(** After a number that reaches the end of the file, [ignore] fails; at
    the end of a file that was read completely, [getline] fails. *)
Example end_of_file_examples :
  ios.fail (ios.ignore (fst (ios.extract_float (ios.open (text "6"))
                               (S754_zero false)))) = true /\
  ios.fail (ios.ignore (fst (ios.extract_float (ios.open (text "6" ++ [newline]))
                               (S754_zero false)))) = false /\
  ios.fail (fst (ios.getline (ios.open []) "")) = true.
Proof. split_and!; vm_compute; reflexivity. Qed.

(** Marks are written with six significant digits: the float nearest to
    33.333332 is written as 33.3333 and read back as another float. *)
Example saved_marks_keep_six_digits :
  let m := Float32.of_decimal false 33333332 (-6) in
  marks_in_range m = true /\
  ios.put_float m = text "33.3333" /\
  snd (ios.extract_float (ios.open (ios.put_float m ++ [newline]))
         (S754_zero false)) <> m.
Proof. split_and!; vm_compute; [reflexivity..|discriminate]. Qed.

(** ** Reading one record *)

Lemma read_Student_Ret ifs s r :
  read_Student ifs s = Ret r <-> read_fields ifs s = Ret r.
Proof. unfold read_Student. destruct (read_fields ifs s); split; congruence. Qed.

Lemma read_Student_Throw ifs s e :
  read_Student ifs s = Throw e ->
  e = corrupted /\ exists e', read_fields ifs s = Throw e'.
Proof.
  unfold read_Student. destruct (read_fields ifs s) as [r|e']; [done|].
  intros [= <-]. eauto.
Qed.

(** A record that is read takes at least one character, and leaves the
    stream usable unless the file ends inside the number of its marks. *)
Lemma read_fields_ok ifs s ifs' s' :
  read_fields ifs s = Ret (ifs', s') ->
  (exists pre, pre <> [] /\ ios.buf ifs = pre ++ ios.buf ifs') /\
  (ends_outside_number (ios.buf ifs) -> ios.fail ifs' = false).
Proof.
  unfold read_fields.
  destruct (ios.getline ifs (name s)) as [f1 n] eqn:H1.
  destruct (ios.fail f1) eqn:F1; [done|].
  destruct (ios.extract_int f1 (rollNo s)) as [f2 r] eqn:H2.
  destruct (ios.fail f2) eqn:F2; [done|].
  destruct (ios.extract_float f2 (marks s)) as [f3 m] eqn:H3.
  destruct (ios.fail f3) eqn:F3; [done|].
  intros [= <- <-].
  apply getline_ok in H1 as (p1 & Hp1 & E1); [|done].
  apply extract_int_ok in H2 as [p2 E2]; [|done].
  apply extract_float_ok in H3 as (ws & p3 & E3 & Hp3 & Hall & Heof & _); [|done].
  destruct (ignore_suffix f3) as [p4 E4].
  split.
  - exists (p1 ++ p2 ++ ws ++ p3 ++ p4). split.
    + by destruct p1.
    + rewrite E1, E2, E3, E4. by rewrite <- !app_assoc.
  - intros Hend. apply ignore_not_eof; [done|].
    rewrite Heof. apply bool_decide_eq_false. intros Hnil.
    rewrite E1, E2, E3, Hnil, app_nil_r, !app_assoc in Hend.
    apply ends_outside_number_suffix in Hend.
    by apply ends_outside_number_all in Hend.
Qed.

(** At the end of the file the name cannot be read. *)
Lemma read_fields_at_end ifs s :
  ios.buf ifs = [] ->
  read_fields ifs s = Throw {| what := "Failed to read name from file" |}.
Proof.
  intros Hb. unfold read_fields, ios.getline, ios.sentry.
  destruct (ios.good ifs) eqn:Hg.
  - rewrite Hb. simpl. rewrite fail_advance. simpl.
    by rewrite orb_true_r.
  - simpl. rewrite fail_advance. by rewrite orb_true_r.
Qed.

(** ** Loading *)

Ltac run_M :=
  unfold addStudent, updateStudent, deleteStudent, searchStudent,
    addStudent_try, updateStudent_try, deleteStudent_try, searchStudent_try,
    report, at_index, findStudentIndex, push_back, size, cin_read,
    throw_if, try_catch, lift, throw, print, get_students, set_students,
    set_disk, mbind, mret, M_bind, M_ret in *;
  simpl in *.

(** The loop only touches the vector. *)
Lemma load_loop_frame fuel : forall file s w r w',
  load_loop fuel file s w = (r, w') -> w' = with_students (students w') w.
Proof.
  induction fuel as [|k IH]; intros file s w r w'; simpl.
  - run_M. intros [= _ <-]. by destruct w.
  - run_M. destruct (read_Student file s) as [[file' s']|e].
    + destruct (ios.fail file').
      * intros [= _ <-]. by destruct w.
      * intros H. apply IH in H. rewrite H. done.
    + intros [= _ <-]. by destruct w.
Qed.

(** It throws nothing but the corruption error. *)
Lemma load_loop_Throw fuel : forall file s w e w',
  load_loop fuel file s w = (Throw e, w') -> e = corrupted.
Proof.
  induction fuel as [|k IH]; intros file s w e w'; simpl; run_M; [done|].
  destruct (read_Student file s) as [[file' s']|e'] eqn:Hr.
  - destruct (ios.fail file'); [done|]. apply IH.
  - intros [= <- _]. by apply read_Student_Throw in Hr as [-> _].
Qed.

(** The loop ends: fuel beyond the length of the unread text is never
    used up. *)
Lemma load_loop_fuel fuel : forall file s w,
  (length (ios.buf file) < fuel)%nat ->
  fst (load_loop fuel file s w) <> Ret None.
Proof.
  induction fuel as [|k IH]; intros file s w Hlen; [lia|].
  simpl; run_M.
  destruct (read_Student file s) as [[file' s']|e'] eqn:Hr; [|done].
  destruct (ios.fail file'); [done|].
  apply IH. apply read_Student_Ret, read_fields_ok in Hr as [(pre & Hne & E) _].
  rewrite E, length_app in Hlen. destruct pre; [done|]. simpl in Hlen. lia.
Qed.

(** A parse failure makes the loop throw. *)
Lemma load_loop_parse_failure file s :
  parse_failure file s ->
  forall fuel w, (length (ios.buf file) < fuel)%nat ->
  exists w', load_loop fuel file s w = (Throw corrupted, w').
Proof.
  induction 1 as [ifs s e He|ifs s ifs' s' Hr Hf _ IH]; intros fuel w Hlen.
  - destruct fuel; [lia|]. simpl; run_M. unfold read_Student. rewrite He.
    by eexists.
  - destruct fuel; [lia|]. simpl; run_M.
    apply read_Student_Ret in Hr as Hr'. rewrite Hr', Hf.
    apply IH. apply read_fields_ok in Hr as [(pre & Hne & E) _].
    rewrite E, length_app in Hlen. destruct pre; [done|]. simpl in Hlen. lia.
Qed.

(** A file that does not end inside a number has a parse failure: at the
    latest, the name that is looked for at the end of the file. *)
Lemma ends_outside_number_parse_failure n : forall file s,
  (length (ios.buf file) <= n)%nat ->
  ends_outside_number (ios.buf file) -> parse_failure file s.
Proof.
  induction n as [|n IH]; intros file s Hlen Hend.
  - apply parse_failure_here with (e := {| what := "Failed to read name from file" |}).
    apply read_fields_at_end. destruct (ios.buf file); [done|simpl in Hlen; lia].
  - destruct (read_fields file s) as [[file' s']|e] eqn:Hr.
    + pose proof (read_fields_ok _ _ _ _ Hr) as [(pre & Hne & E) Hf].
      eapply parse_failure_later; [exact Hr|by apply Hf|].
      apply IH.
      * rewrite E, length_app in Hlen. destruct pre; [done|]. simpl in Hlen. lia.
      * rewrite E in Hend. by apply ends_outside_number_suffix in Hend.
    + by eapply parse_failure_here.
Qed.

Lemma loadFromFile_parse_failure w content :
  disk w = Some content ->
  parse_failure (ios.open content) Student_default ->
  loadFromFile w = (Ret tt, with_students [] (with_cout warning w)).
Proof.
  intros Hd Hp. unfold loadFromFile. rewrite Hd.
  destruct (load_loop_parse_failure _ _ Hp (S (length content)) w) as [w' Hl];
    [simpl; lia|].
  unfold try_catch at 1. unfold mbind at 1. unfold M_bind at 1. rewrite Hl.
  apply load_loop_frame in Hl. rewrite Hl. done.
Qed.


(** ** Saving *)

Lemma write_Student_ends s : exists l, write_Student s = l ++ [newline].
Proof.
  unfold write_Student.
  exists (text (name s) ++ [newline] ++ ios.put_int (rollNo s) ++ [newline]
            ++ ios.put_float (marks s)).
  by rewrite <- !app_assoc.
Qed.

(** What [saveToFile] writes is empty or ends in a newline. *)
Lemma saved_file_ends l : ends_outside_number (concat (map write_Student l)).
Proof.
  intros c. destruct l as [|s l _] using rev_ind; [done|].
  rewrite map_app, concat_app. simpl. rewrite app_nil_r.
  destruct (write_Student_ends s) as [k ->].
  rewrite app_assoc, last_snoc. by intros [= <-].
Qed.

Lemma saveToFile_run w :
  writable w = true ->
  saveToFile w =
    (Ret tt,
     {| students := students w;
        cout := cout w ++ [Str "Data saved successfully. ";
                           Num (Z.of_nat (length (students w)));
                           Str " records stored."; Endl];
        disk := Some (concat (map write_Student (students w)));
        writable := true |}).
Proof. intros Hw. unfold saveToFile. rewrite Hw. run_M. by rewrite Hw. Qed.

(** The constructor on a file that has a parse failure. *)
Lemma construct_parse_failure content b :
  parse_failure (ios.open content) Student_default ->
  StudentManagementSystem (Some content) b =
    {| students := []; cout := warning; disk := Some content; writable := b |}.
Proof.
  intros Hp. unfold StudentManagementSystem, try_catch.
  by rewrite (loadFromFile_parse_failure _ content).
Qed.

Lemma construct_no_file b :
  StudentManagementSystem None b =
    {| students := [];
       cout := [Str "No existing data file found. Starting fresh."; Endl];
       disk := None; writable := b |}.
Proof. done. Qed.

Lemma ends_outside_number_load content b :
  ends_outside_number content ->
  StudentManagementSystem (Some content) b =
    {| students := []; cout := warning; disk := Some content; writable := b |}.
Proof.
  intros He. apply construct_parse_failure.
  by apply (ends_outside_number_parse_failure (length content)).
Qed.

(** ** The record store *)

Lemma findStudentIndex_from_spec l r : forall i, 0 <= i ->
  (findStudentIndex_from i l r = -1 /\ r ∉ map rollNo l) \/
  (exists k s, findStudentIndex_from i l r = i + Z.of_nat k /\
               l !! k = Some s /\ rollNo s = r /\ r ∉ map rollNo (take k l)).
Proof.
  induction l as [|s l IH]; intros i Hi; simpl.
  - left. split; [done|]. apply not_elem_of_nil.
  - destruct (Z.eqb_spec (rollNo s) r) as [Heq|Hne].
    + right. exists 0%nat, s. simpl. split_and!; [lia|done|done|].
      apply not_elem_of_nil.
    + destruct (IH (i + 1)) as [[H1 H2]|(k & s' & H1 & H2 & H3 & H4)]; [lia|..].
      * left. split; [done|]. rewrite not_elem_of_cons. by split.
      * right. exists (S k), s'. simpl. split_and!; [lia|done|done|].
        rewrite not_elem_of_cons. by split.
Qed.

Lemma findStudentIndex_absent l r :
  findStudentIndex_from 0 l r = -1 <-> r ∉ map rollNo l.
Proof.
  destruct (findStudentIndex_from_spec l r 0) as [[H1 H2]|(k & s & H1 & H2 & H3 & _)];
    [lia|by split|].
  split; [lia|]. intros Hn. exfalso. apply Hn.
  apply list_elem_of_fmap. exists s. split; [done|].
  by eapply list_elem_of_lookup_2.
Qed.

Lemma findStudentIndex_present l r :
  findStudentIndex_from 0 l r <> -1 ->
  exists k s, findStudentIndex_from 0 l r = Z.of_nat k /\
              l !! k = Some s /\ rollNo s = r /\ r ∉ map rollNo (take k l).
Proof.
  destruct (findStudentIndex_from_spec l r 0) as [[H1 H2]|(k & s & H1 & H2 & H3 & H4)];
    [lia|done|].
  intros _. exists k, s. split_and!; [lia|done..].
Qed.

Lemma addStudent_try_spec n r m w :
  match fst (addStudent_try n r m w) with
  | Throw e =>
      students (snd (addStudent_try n r m w)) = students w /\
      (str_empty n = true \/ r = None \/
       exists r0, r = Some r0 /\
         (r0 < 0 \/ m = None \/
          exists m0, m = Some m0 /\
            (marks_rejected m0 = true \/ (r0 ∈ map rollNo (students w)))))
  | Ret _ =>
      exists r0 m0, r = Some r0 /\ m = Some m0 /\
        str_empty n = false /\ 0 <= r0 /\ marks_rejected m0 = false /\
        (r0 ∉ map rollNo (students w)) /\
        students (snd (addStudent_try n r m w)) =
          students w ++ [{| name := n; rollNo := r0; marks := m0 |}]
  end.
Proof.
  unfold addStudent_try, Student_new. run_M.
  destruct (str_empty n) eqn:Hn; simpl; [by auto|].
  destruct r as [r0|]; simpl; [|by auto].
  destruct (Z.ltb_spec r0 0) as [Hr|Hr]; simpl.
  { split; [done|]. do 2 right. exists r0. auto. }
  destruct m as [m0|]; simpl.
  2:{ split; [done|]. do 2 right. exists r0. auto. }
  destruct (marks_rejected m0) eqn:Hm; simpl.
  { split; [done|]. do 2 right. exists r0. split; [done|]. do 2 right.
    exists m0. auto. }
  destruct (Z.eqb_spec (findStudentIndex_from 0 (students w) r0) (-1)) as [Hf|Hf];
    simpl.
  - apply findStudentIndex_absent in Hf. exists r0, m0. by split_and!.
  - split; [done|]. do 2 right. exists r0. split; [done|]. do 2 right.
    exists m0. split; [done|]. right.
    destruct (decide (r0 ∈ map rollNo (students w))) as [|Hn']; [done|].
    by apply findStudentIndex_absent in Hn'.
Qed.

Lemma updateStudent_try_absent r0 n m w :
  (r0 ∉ map rollNo (students w)) ->
  updateStudent_try (Some r0) n m w =
    (Throw not_found, with_cout [Str "Enter Roll No to update: "] w).
Proof.
  intros Ha. apply findStudentIndex_absent in Ha.
  unfold updateStudent_try. run_M. by rewrite Ha.
Qed.

Lemma updateStudent_try_spec r n m w :
  match fst (updateStudent_try r n m w) with
  | Throw e =>
      students (snd (updateStudent_try r n m w)) = students w /\
      (r = None \/ (exists r0, r = Some r0 /\ (r0 ∉ map rollNo (students w))) \/
       str_empty n = true \/ m = None \/
       exists m0, m = Some m0 /\ marks_rejected m0 = true)
  | Ret _ =>
      exists r0 m0 k s, r = Some r0 /\ m = Some m0 /\
        str_empty n = false /\ marks_rejected m0 = false /\
        students w !! k = Some s /\ rollNo s = r0 /\
        (r0 ∉ map rollNo (take k (students w))) /\
        students (snd (updateStudent_try r n m w)) =
          <[k := {| name := n; rollNo := rollNo s; marks := m0 |}]> (students w)
  end.
Proof.
  unfold updateStudent_try, setName, setMarks. run_M.
  destruct r as [r0|]; simpl; [|by auto].
  destruct (Z.eqb_spec (findStudentIndex_from 0 (students w) r0) (-1)) as [Hf|Hf];
    simpl.
  { apply findStudentIndex_absent in Hf. split; [done|]. right; left. eauto. }
  apply findStudentIndex_present in Hf as (k & s & -> & Hk & Hs & Hfirst).
  destruct (str_empty n) eqn:Hn; simpl; [by auto 6|].
  destruct m as [m0|]; simpl; [|by auto 6].
  destruct (marks_rejected m0) eqn:Hm; simpl.
  { split; [done|]. do 4 right. by exists m0. }
  rewrite Nat2Z.id, Hk. simpl.
  rewrite list_lookup_insert_eq by (by eapply lookup_lt_Some). simpl.
  rewrite list_insert_insert_eq.
  exists r0, m0, k, s. by split_and!.
Qed.

Lemma deleteStudent_try_spec r w :
  match fst (deleteStudent_try r w) with
  | Throw e =>
      students (snd (deleteStudent_try r w)) = students w /\
      (r = None \/
       (e = not_found /\ exists r0, r = Some r0 /\ (r0 ∉ map rollNo (students w))))
  | Ret _ =>
      exists r0 k s, r = Some r0 /\
        students w !! k = Some s /\ rollNo s = r0 /\
        (r0 ∉ map rollNo (take k (students w))) /\
        students (snd (deleteStudent_try r w)) = delete k (students w)
  end.
Proof.
  unfold deleteStudent_try. run_M.
  destruct r as [r0|]; simpl; [|by auto].
  destruct (Z.eqb_spec (findStudentIndex_from 0 (students w) r0) (-1)) as [Hf|Hf];
    simpl.
  { apply findStudentIndex_absent in Hf. split; [done|]. right. eauto. }
  apply findStudentIndex_present in Hf as (k & s & -> & Hk & Hs & Hfirst).
  rewrite Nat2Z.id. exists r0, k, s. by split_and!.
Qed.

(** ** The order on floats *)

Section FloatOrder.

Lemma SFcompare_antisym x y c :
  SFcompare x y = Some c -> SFcompare y x = Some (CompOpp c).
Proof.
  destruct x as [sx|sx| |sx mx ex], y as [sy|sy| |sy my ey]; simpl;
    try done;
    try (destruct sx; intros [= <-]; done);
    try (destruct sy; intros [= <-]; done).
  - destruct sx, sy; intros [= <-]; done.
  - destruct sx, sy; intros [= <-]; try done;
      change (Pos.compare_cont Eq) with Pos.compare;
      destruct (Z.compare_spec ex ey), (Z.compare_spec ey ex);
      try lia; simpl; try done;
      destruct (Pos.compare_spec mx my), (Pos.compare_spec my mx);
      simpl; try done; lia.
Qed.

Lemma SFcompare_total x y :
  Float32.is_nan x = false -> Float32.is_nan y = false ->
  exists c, SFcompare x y = Some c.
Proof.
  destruct x as [sx|sx| |sx mx ex], y as [sy|sy| |sy my ey]; simpl;
    try done; eauto.
Qed.

(** [x < y] is the negation of [y <= x] on numbers. *)
Lemma ltb_negb_leb x y :
  Float32.is_nan x = false -> Float32.is_nan y = false ->
  Float32.ltb x y = negb (Float32.leb y x).
Proof.
  intros Hx Hy. destruct (SFcompare_total x y Hx Hy) as [c Hc].
  unfold Float32.ltb, Float32.leb, SFltb, SFleb.
  rewrite Hc, (SFcompare_antisym _ _ _ Hc). by destruct c.
Qed.

Lemma leb_not_nan x y :
  Float32.leb x y = true -> Float32.is_nan x = false /\ Float32.is_nan y = false.
Proof.
  unfold Float32.leb, SFleb.
  destruct x as [sx|sx| |sx mx ex], y as [sy|sy| |sy my ey]; done.
Qed.

Lemma leb_refl x : Float32.is_nan x = false -> Float32.leb x x = true.
Proof.
  unfold Float32.leb, SFleb.
  destruct x as [sx|sx| |sx mx ex]; simpl; try done.
  - by destruct sx.
  - intros _. rewrite Z.compare_refl, Pos.compare_cont_refl. by destruct sx.
Qed.

Lemma ltb_leb x y : Float32.ltb x y = true -> Float32.leb x y = true.
Proof.
  unfold Float32.ltb, Float32.leb, SFltb, SFleb.
  by destruct (SFcompare x y) as [[]|].
Qed.

Ltac order_cases :=
  repeat match goal with
    | |- context [Z.compare ?a ?b] => destruct (Z.compare_spec a b)
    | |- context [Pos.compare ?a ?b] => destruct (Pos.compare_spec a b)
    end; simpl; try done; try lia.

Lemma leb_trans x y z :
  Float32.leb x y = true -> Float32.leb y z = true -> Float32.leb x z = true.
Proof.
  unfold Float32.leb, SFleb.
  destruct x as [sx|sx| |sx mx ex], y as [sy|sy| |sy my ey],
           z as [sz|sz| |sz mz ez]; simpl; try done;
    try (destruct sx; try done); try (destruct sy; try done);
    try (destruct sz; try done);
    change (Pos.compare_cont Eq) with Pos.compare; order_cases.
Qed.

End FloatOrder.

(** ** Validation *)

Lemma marks_rejected_in_range m :
  Float32.is_nan m = false -> marks_rejected m = negb (marks_in_range m).
Proof.
  intros Hm. unfold marks_rejected, marks_in_range.
  rewrite !ltb_negb_leb by done. by rewrite negb_andb.
Qed.

Lemma marks_rejected_outside m : marks_rejected m = true <-> marks_outside m.
Proof. unfold marks_rejected, marks_outside. apply orb_true_iff. Qed.

(** On numbers, outside is the negation of inside. *)
Lemma marks_outside_in_range m :
  Float32.is_nan m = false -> (marks_outside m <-> marks_in_range m = false).
Proof.
  intros Hm. rewrite <- marks_rejected_outside, (marks_rejected_in_range _ Hm).
  apply negb_true_iff.
Qed.

Lemma marks_in_range_accepted m :
  marks_in_range m = true -> marks_rejected m = false.
Proof.
  intros H. rewrite marks_rejected_in_range; [by rewrite H|].
  unfold marks_in_range in H. apply andb_true_iff in H as [H _].
  by apply leb_not_nan in H as [_ H].
Qed.

Lemma str_empty_spec n : str_empty n = true <-> n = "".
Proof. by destruct n. Qed.

Lemma str_nonempty_spec n : str_empty n = false <-> n <> "".
Proof. by destruct n. Qed.

(** ** The handlers *)

Lemma try_catch_Ret {A} (body : M A) h w a :
  fst (body w) = Ret a -> try_catch body h w = body w.
Proof. unfold try_catch. destruct (body w) as [[a'|e] w']; by intros [=]. Qed.

Lemma try_catch_report (body : M unit) w e :
  fst (body w) = Throw e ->
  try_catch body report w =
    (Ret tt, with_cout [Str "Error: "; Str (what e); Endl] (snd (body w))).
Proof.
  unfold try_catch. destruct (body w) as [[a'|e'] w']; simpl; [done|].
  by intros [= ->].
Qed.

Lemma findStudentIndex_from_last l s : forall i,
  (rollNo s ∉ map rollNo l) ->
  findStudentIndex_from i (l ++ [s]) (rollNo s) = i + Z.of_nat (length l).
Proof.
  induction l as [|s' l IH]; intros i Hn; simpl.
  - rewrite Z.eqb_refl. lia.
  - simpl in Hn. apply not_elem_of_cons in Hn as [Hne Hn].
    destruct (Z.eqb_spec (rollNo s') (rollNo s)); [done|].
    rewrite IH by done. lia.
Qed.

(** ** Searching and adding *)

Lemma searchStudent_found w r k s :
  findStudentIndex_from 0 (students w) r = Z.of_nat k ->
  students w !! k = Some s ->
  searchStudent (Some r) w =
    (Ret tt,
     with_cout ([Str "Enter Roll No to search: "; Endl; Str "Student Found:"; Endl]
                  ++ table_header ++ display s) w).
Proof.
  intros Hf Hk. unfold searchStudent, searchStudent_try. run_M.
  rewrite Hf. destruct (Z.eqb_spec (Z.of_nat k) (-1)); [lia|].
  simpl. rewrite Nat2Z.id, Hk. unfold with_cout. simpl.
  by rewrite <- app_assoc.
Qed.

Lemma searchStudent_absent w r :
  (r ∉ map rollNo (students w)) ->
  searchStudent_try (Some r) w =
    (Throw not_found, with_cout [Str "Enter Roll No to search: "] w).
Proof.
  intros Ha. apply findStudentIndex_absent in Ha.
  unfold searchStudent_try. run_M. by rewrite Ha.
Qed.

(** C10: for every store and every valid triple (a name that is not
    empty, a roll number that is not negative, marks in [[0,100]]) whose
    roll number is not in the store, adding the triple succeeds, and a search
    for the roll number afterwards finds a record with exactly the name, the
    roll number and the marks that were added, and displays it. *)
Theorem add_then_find (w : world) (n : string) (r : Z) (m : spec_float) :
  n <> "" -> 0 <= r -> marks_in_range m = true ->
  (r ∉ map rollNo (students w)) ->
  let added := {| name := n; rollNo := r; marks := m |} in
  let w1 := snd (addStudent n (Some r) (Some m) w) in
  fst (addStudent_try n (Some r) (Some m) w) = Ret tt /\
  (exists index,
     fst (findStudentIndex r w1) = Ret index /\ index <> -1 /\
     students w1 !! Z.to_nat index = Some added) /\
  searchStudent (Some r) w1 =
    (Ret tt,
     with_cout ([Str "Enter Roll No to search: "; Endl; Str "Student Found:"; Endl]
                  ++ table_header ++ display added) w1).
Proof.
  intros Hn Hr Hm Hfree added w1.
  pose proof (addStudent_try_spec n (Some r) (Some m) w) as Hspec.
  destruct (fst (addStudent_try n (Some r) (Some m) w)) as [[]|e] eqn:Hres.
  - destruct Hspec as (r0 & m0 & [= <-] & [= <-] & _ & _ & _ & _ & Hst).
    assert (students w1 = students w ++ [added]) as Hw1.
    { subst w1. unfold addStudent. by rewrite (try_catch_Ret _ _ _ _ Hres). }
    assert (findStudentIndex_from 0 (students w1) r
            = Z.of_nat (length (students w))) as Hfind.
    { rewrite Hw1. apply (findStudentIndex_from_last (students w) added 0 Hfree). }
    assert (students w1 !! Z.to_nat (Z.of_nat (length (students w)))
            = Some added) as Hlook.
    { rewrite Nat2Z.id, Hw1. by rewrite lookup_app_r, Nat.sub_diag. }
    split_and!; [done| |].
    + exists (Z.of_nat (length (students w))).
      split_and!; [by rewrite <- Hfind|lia|done].
    + apply (searchStudent_found _ _ (length (students w))); [done|].
      by rewrite Nat2Z.id in Hlook.
  - destruct Hspec as (_ & [H|[H|(r0 & [= <-] & [H|[H|(m0 & [= <-] & [H|H])]])]]);
      try done.
    + by apply str_empty_spec in H.
    + lia.
    + by rewrite (marks_in_range_accepted _ Hm) in H.
Qed.

Lemma add_then_find_witness :
  let w := StudentManagementSystem None true in
  let added := {| name := "Alice"; rollNo := 1; marks := f32_88_5 |} in
  let w1 := snd (addStudent "Alice" (Some 1) (Some f32_88_5) w) in
  fst (addStudent_try "Alice" (Some 1) (Some f32_88_5) w) = Ret tt /\
  (exists index,
     fst (findStudentIndex 1 w1) = Ret index /\ index <> -1 /\
     students w1 !! Z.to_nat index = Some added) /\
  searchStudent (Some 1) w1 =
    (Ret tt,
     with_cout ([Str "Enter Roll No to search: "; Endl; Str "Student Found:"; Endl]
                  ++ table_header ++ display added) w1).
Proof.
  apply (add_then_find (StudentManagementSystem None true) "Alice" 1 f32_88_5).
  - done.
  - lia.
  - reflexivity.
  - simpl. apply not_elem_of_nil.
Defined.

(** The outcome of the [try] block of [addStudent], check by check. *)
Lemma addStudent_try_fst n r m w :
  fst (addStudent_try n (Some r) (Some m) w) =
    if str_empty n then Throw {| what := "Name cannot be empty" |}
    else if r <? 0 then Throw {| what := "Roll number cannot be negative" |}
    else if marks_rejected m then Throw {| what := "Marks must be between 0-100" |}
    else if negb (findStudentIndex_from 0 (students w) r =? -1)
         then Throw {| what := "Student with this Roll No already exists" |}
         else Ret tt.
Proof.
  unfold addStudent_try, Student_new. run_M.
  destruct (str_empty n); simpl; [done|].
  destruct (r <? 0); simpl; [done|].
  destruct (marks_rejected m); simpl; [done|].
  by destruct (findStudentIndex_from 0 (students w) r =? -1).
Qed.

(** C6: for every store and every input (name, rollNo, marks), [add]
    fails with a validation error if and only if the name is empty, the
    roll number is negative, the marks are outside [[0,100]], that is
    strictly below 0 or strictly above 100 (for a number: not in [[0,100]]),
    or the roll number is already in the store; otherwise the new record is
    appended at the end, after the existing records in their order.  Marks 0
    and 100 are accepted, -0.01 and 100.01 are rejected. *)
Theorem add_validation (w : world) (n : string) (r : Z) (m : spec_float) :
  let outcome (x : spec_float) := fst (addStudent_try n (Some r) (Some x) w) in
  ((exists e, outcome m = Throw e) <->
   (n = "" \/ r < 0 \/ marks_outside m \/ (r ∈ map rollNo (students w)))) /\
  (Float32.is_nan m = false -> (marks_outside m <-> marks_in_range m = false)) /\
  (outcome m = Ret tt ->
   students (snd (addStudent n (Some r) (Some m) w)) =
     students w ++ [{| name := n; rollNo := r; marks := m |}]) /\
  (n <> "" -> 0 <= r -> (r ∉ map rollNo (students w)) ->
   outcome (Float32.of_Z 0) = Ret tt /\
   outcome (Float32.of_Z 100) = Ret tt /\
   outcome f32_minus_0_01 = Throw {| what := "Marks must be between 0-100" |} /\
   outcome f32_100_01 = Throw {| what := "Marks must be between 0-100" |}).
Proof.
  intros outcome. subst outcome. simpl.
  pose proof (addStudent_try_spec n (Some r) (Some m) w) as Hspec.
  split_and!.
  - destruct (fst (addStudent_try n (Some r) (Some m) w)) as [[]|e] eqn:Hres.
    + destruct Hspec as (r0 & m0 & [= <-] & [= <-] & Hn & Hr & Hm & Hfree & _).
      split; [by intros [e [=]]|].
      apply str_nonempty_spec in Hn.
      intros [H|[H|[H|H]]]; [done|lia| |done].
      apply marks_rejected_outside in H. congruence.
    + split; [|by eauto]. intros _.
      destruct Hspec as (_ & [H|[H|(r0 & [= <-] & [H|[H|(m0 & [= <-] & [H|H])]])]]);
        try done.
      * left. by apply str_empty_spec.
      * by right; left.
      * do 2 right; left. by apply marks_rejected_outside.
      * by do 3 right.
  - apply marks_outside_in_range.
  - intros Hres. rewrite Hres in Hspec.
    destruct Hspec as (r0 & m0 & [= <-] & [= <-] & _ & _ & _ & _ & Hst).
    unfold addStudent. by rewrite (try_catch_Ret _ _ _ _ Hres).
  - intros Hn Hr Hfree. apply str_nonempty_spec in Hn.
    apply findStudentIndex_absent in Hfree. apply Z.ltb_ge in Hr.
    rewrite !addStudent_try_fst, Hn, Hr, Hfree. done.
Qed.

Lemma add_validation_witness :
  let w := StudentManagementSystem None true in
  let outcome (x : spec_float) := fst (addStudent_try "Bob" (Some 2) (Some x) w) in
  (marks_outside f32_100_01 <-> marks_in_range f32_100_01 = false) /\
  (outcome f32_88_5 = Ret tt ->
   students (snd (addStudent "Bob" (Some 2) (Some f32_88_5) w)) =
     students w ++ [{| name := "Bob"; rollNo := 2; marks := f32_88_5 |}]) /\
  outcome (Float32.of_Z 0) = Ret tt /\
  outcome (Float32.of_Z 100) = Ret tt /\
  outcome f32_minus_0_01 = Throw {| what := "Marks must be between 0-100" |} /\
  outcome f32_100_01 = Throw {| what := "Marks must be between 0-100" |}.
Proof.
  intros w outcome.
  pose proof (add_validation w "Bob" 2 f32_100_01) as (_ & Hrange & _ & Hbound).
  pose proof (add_validation w "Bob" 2 f32_88_5) as (_ & _ & Happend & _).
  split_and!.
  - apply Hrange. reflexivity.
  - exact Happend.
  - apply Hbound; [done|lia|simpl; apply not_elem_of_nil].
  - apply Hbound; [done|lia|simpl; apply not_elem_of_nil].
  - apply Hbound; [done|lia|simpl; apply not_elem_of_nil].
  - apply Hbound; [done|lia|simpl; apply not_elem_of_nil].
Defined.

(** C5: for every store and every input (values or failed reads), when
    [add] or [update] fails, that is when its [try] block throws, the error
    is reported and the records of the store are exactly what they were; in
    particular an [add] whose roll number is already in the store always
    fails and leaves the number of records unchanged. *)
Theorem failed_add_update_no_mutation (w : world) (n : string)
    (r : option Z) (m : option spec_float) (e : StudentException) :
  (fst (addStudent_try n r m w) = Throw e ->
   addStudent n r m w =
     (Ret tt, with_cout [Str "Error: "; Str (what e); Endl]
                (snd (addStudent_try n r m w))) /\
   students (snd (addStudent n r m w)) = students w) /\
  (fst (updateStudent_try r n m w) = Throw e ->
   updateStudent r n m w =
     (Ret tt, with_cout [Str "Error: "; Str (what e); Endl]
                (snd (updateStudent_try r n m w))) /\
   students (snd (updateStudent r n m w)) = students w) /\
  (forall r0, r = Some r0 -> (r0 ∈ map rollNo (students w)) ->
   (exists e', fst (addStudent_try n r m w) = Throw e') /\
   length (students (snd (addStudent n r m w))) = length (students w)).
Proof.
  split_and!.
  - intros Hres. pose proof (addStudent_try_spec n r m w) as Hspec.
    rewrite Hres in Hspec. destruct Hspec as [Hst _].
    unfold addStudent. rewrite (try_catch_report _ _ _ Hres). by split.
  - intros Hres. pose proof (updateStudent_try_spec r n m w) as Hspec.
    rewrite Hres in Hspec. destruct Hspec as [Hst _].
    unfold updateStudent. rewrite (try_catch_report _ _ _ Hres). by split.
  - intros r0 -> Hdup. pose proof (addStudent_try_spec n (Some r0) m w) as Hspec.
    destruct (fst (addStudent_try n (Some r0) m w)) as [[]|e'] eqn:Hres.
    + by destruct Hspec as (r1 & m0 & [= <-] & _ & _ & _ & _ & Hfree & _).
    + destruct Hspec as [Hst _]. split; [by eauto|].
      unfold addStudent. rewrite (try_catch_report _ _ _ Hres). simpl.
      by rewrite Hst.
Qed.

Lemma failed_add_update_no_mutation_witness :
  let w := two_students in
  let e := {| what := "Student with this Roll No already exists" |} in
  (addStudent "Carol" (Some 2) (Some f32_42) w =
     (Ret tt, with_cout [Str "Error: "; Str (what e); Endl]
                (snd (addStudent_try "Carol" (Some 2) (Some f32_42) w))) /\
   students (snd (addStudent "Carol" (Some 2) (Some f32_42) w)) = students w) /\
  ((exists e', fst (addStudent_try "Carol" (Some 2) (Some f32_42) w) = Throw e') /\
   length (students (snd (addStudent "Carol" (Some 2) (Some f32_42) w)))
     = length (students w)).
Proof.
  intros w e.
  pose proof (failed_add_update_no_mutation w "Carol" (Some 2) (Some f32_42) e)
    as (Hadd & _ & Hdup).
  split.
  - apply Hadd. reflexivity.
  - apply (Hdup 2); [reflexivity|]. vm_compute. right. left.
Defined.

(** ** Updating *)

Lemma map_rollNo_insert l : forall k s s',
  l !! k = Some s -> rollNo s' = rollNo s ->
  map rollNo (<[k := s']> l) = map rollNo l.
Proof.
  induction l as [|x l IH]; intros k s s' Hk Hr; [done|].
  destruct k as [|k]; simpl in *.
  - injection Hk as ->. by rewrite Hr.
  - by rewrite (IH k s s').
Qed.

(** C7: for every store, [update] of a roll number that no record has
    fails with the not-found error and changes nothing; for a roll number
    that is present it fails exactly when the new name is empty or the new
    marks are outside [[0,100]] (strictly below 0 or strictly above 100, for
    a number: not in [[0,100]]), the constraints of [add]; and when it
    succeeds the first record with that roll number gets the new name and
    marks in place, keeps its roll number, and every other record is
    unchanged. *)
Theorem update_in_place (w : world) (r : Z) (n : string) (m : spec_float) :
  let w1 := snd (updateStudent (Some r) n (Some m) w) in
  ((r ∉ map rollNo (students w)) ->
   fst (updateStudent_try (Some r) n (Some m) w) = Throw not_found /\
   students w1 = students w) /\
  ((r ∈ map rollNo (students w)) ->
   ((exists e, fst (updateStudent_try (Some r) n (Some m) w) = Throw e) <->
    (n = "" \/ marks_outside m)) /\
   (Float32.is_nan m = false -> (marks_outside m <-> marks_in_range m = false)) /\
   (fst (updateStudent_try (Some r) n (Some m) w) = Ret tt ->
    exists k s,
      students w !! k = Some s /\ rollNo s = r /\
      (r ∉ map rollNo (take k (students w))) /\
      students w1 = <[k := {| name := n; rollNo := r; marks := m |}]> (students w) /\
      map rollNo (students w1) = map rollNo (students w) /\
      length (students w1) = length (students w) /\
      forall j, j <> k -> students w1 !! j = students w !! j)).
Proof.
  intros w1. subst w1.
  pose proof (updateStudent_try_spec (Some r) n (Some m) w) as Hspec.
  split.
  - intros Habs. rewrite (updateStudent_try_absent _ _ _ _ Habs) in *.
    split; [done|]. simpl in Hspec. destruct Hspec as [Hst _].
    unfold updateStudent.
    by rewrite (try_catch_report _ _ not_found),
      (updateStudent_try_absent _ _ _ _ Habs)
      by (by rewrite (updateStudent_try_absent _ _ _ _ Habs)).
  - intros Hpres.
    destruct (fst (updateStudent_try (Some r) n (Some m) w)) as [[]|e] eqn:Hres.
    + destruct Hspec as (r0 & m0 & k & s & [= <-] & [= <-] & Hn & Hm & Hk & Hs
                         & Hfirst & Hst).
      split_and!.
      * split; [by intros [e [=]]|].
        apply str_nonempty_spec in Hn.
        intros [H|H]; [done|]. apply marks_rejected_outside in H. congruence.
      * apply marks_outside_in_range.
      * intros _. exists k, s.
        assert (students (snd (updateStudent (Some r) n (Some m) w)) =
                <[k := {| name := n; rollNo := r; marks := m |}]> (students w))
          as Hw1.
        { unfold updateStudent. rewrite (try_catch_Ret _ _ _ _ Hres).
          by rewrite Hst, Hs. }
        rewrite Hw1. split_and!; try done.
        -- by apply (map_rollNo_insert _ k s).
        -- by rewrite length_insert.
        -- intros j Hj. by rewrite list_lookup_insert_ne.
    + split_and!; [|apply marks_outside_in_range|done].
      split; [intros _|by eauto].
      destruct Hspec as (_ & [H|[(r0 & [= <-] & H)|[H|[H|(m0 & [= <-] & H)]]]]);
        try done.
      * left. by apply str_empty_spec.
      * right. by apply marks_rejected_outside.
Qed.

Lemma update_in_place_witness :
  let w := two_students in
  let w1 := snd (updateStudent (Some 2) "Robert" (Some f32_88_5) w) in
  (marks_outside f32_88_5 <-> marks_in_range f32_88_5 = false) /\
  exists k s,
    students w !! k = Some s /\ rollNo s = 2 /\
    (2 ∉ map rollNo (take k (students w))) /\
    students w1
      = <[k := {| name := "Robert"; rollNo := 2; marks := f32_88_5 |}]> (students w) /\
    map rollNo (students w1) = map rollNo (students w) /\
    length (students w1) = length (students w) /\
    forall j, j <> k -> students w1 !! j = students w !! j.
Proof.
  intros w w1.
  pose proof (update_in_place w 2 "Robert" f32_88_5) as [_ Hpres].
  destruct Hpres as (_ & Hrange & Hok).
  - vm_compute. right. left.
  - split; [apply Hrange; reflexivity|]. apply Hok. reflexivity.
Defined.

(** ** Deleting *)

(** Closes [NoDup l] and [x ∉ l] for a list of integer literals. *)
Ltac distinct_rollNos :=
  repeat first
    [ apply NoDup_nil_2
    | apply not_elem_of_nil
    | apply NoDup_cons_2
    | apply not_elem_of_cons; split; [lia|] ].

Lemma delete_first_match l k s :
  NoDup (map rollNo l) -> l !! k = Some s ->
  rollNo s ∉ map rollNo (delete k l).
Proof.
  intros Hnd Hk. rewrite delete_take_drop.
  rewrite <- (take_drop_middle l k s Hk) in Hnd.
  rewrite map_app in Hnd. simpl in Hnd.
  apply NoDup_app in Hnd as (_ & Hdisj & Hnd).
  apply NoDup_cons in Hnd as [Hpost _].
  rewrite map_app, not_elem_of_app. split; [|done].
  intros Hin. apply (Hdisj _ Hin). left.
Qed.

(** C8, as far as it holds: for every store in which the roll number is
    present [delete] succeeds, removes exactly the first record with that
    roll number, keeps the other records in their order and makes the store
    one record shorter; when no other record has that roll number, a search
    for it afterwards reports not-found.  For a roll number that is absent
    [delete] fails with the not-found error and changes nothing. *)
Theorem delete_removes_record (w : world) (r : Z) :
  let w1 := snd (deleteStudent (Some r) w) in
  ((r ∈ map rollNo (students w)) ->
   fst (deleteStudent_try (Some r) w) = Ret tt /\
   (exists pre s post,
      students w = pre ++ s :: post /\ rollNo s = r /\
      (r ∉ map rollNo pre) /\ students w1 = pre ++ post) /\
   length (students w) = S (length (students w1)) /\
   (NoDup (map rollNo (students w)) ->
    fst (findStudentIndex r w1) = Ret (-1) /\
    fst (searchStudent_try (Some r) w1) = Throw not_found)) /\
  ((r ∉ map rollNo (students w)) ->
   fst (deleteStudent_try (Some r) w) = Throw not_found /\
   students w1 = students w).
Proof.
  intros w1. subst w1.
  pose proof (deleteStudent_try_spec (Some r) w) as Hspec.
  destruct (fst (deleteStudent_try (Some r) w)) as [[]|e] eqn:Hres.
  - destruct Hspec as (r0 & k & s & [= <-] & Hk & Hs & Hfirst & Hst).
    assert (students (snd (deleteStudent (Some r) w)) = delete k (students w))
      as Hw1.
    { unfold deleteStudent. by rewrite (try_catch_Ret _ _ _ _ Hres). }
    split.
    + intros _. rewrite Hw1. split_and!; [done| | |].
      * exists (take k (students w)), s, (drop (S k) (students w)).
        split_and!; [by rewrite take_drop_middle|done|done|].
        apply delete_take_drop.
      * rewrite length_delete by eauto.
        apply lookup_lt_Some in Hk. lia.
      * intros Hnd. pose proof (delete_first_match _ _ _ Hnd Hk) as Hgone.
        rewrite Hs, <- Hw1 in Hgone. split.
        -- unfold findStudentIndex. run_M. f_equal.
           by apply findStudentIndex_absent.
        -- by rewrite searchStudent_absent.
    + intros Habs. exfalso. apply Habs.
      apply list_elem_of_fmap. exists s. split; [done|].
      by eapply list_elem_of_lookup_2.
  - destruct Hspec as (Hst & [H|(-> & r0 & [= <-] & Habs)]); [done|].
    split; [done|]. intros _. split; [done|].
    unfold deleteStudent. by rewrite (try_catch_report _ _ _ Hres).
Qed.

Lemma delete_removes_record_witness :
  let w := two_students in
  let w1 := snd (deleteStudent (Some 1) w) in
  fst (deleteStudent_try (Some 1) w) = Ret tt /\
  (exists pre s post,
     students w = pre ++ s :: post /\ rollNo s = 1 /\
     (1 ∉ map rollNo pre) /\ students w1 = pre ++ post) /\
  length (students w) = S (length (students w1)) /\
  fst (findStudentIndex 1 w1) = Ret (-1) /\
  fst (searchStudent_try (Some 1) w1) = Throw not_found.
Proof.
  intros w w1.
  pose proof (delete_removes_record w 1) as [Hpres _].
  destruct Hpres as (H1 & H2 & H3 & H4).
  - vm_compute. left.
  - split_and!; [exact H1|exact H2|exact H3|..]; apply H4;
      vm_compute; distinct_rollNos.
Defined.

(** C8 fails as stated: in the store loaded from [duplicates_file] the
    roll number 1 is present, and after [delete] of 1 a search for 1 still
    finds a record. *)
Lemma delete_with_duplicate_still_found :
  let w := StudentManagementSystem (Some duplicates_file) true in
  let w1 := snd (deleteStudent (Some 1) w) in
  (1 ∈ map rollNo (students w)) /\
  fst (deleteStudent_try (Some 1) w) = Ret tt /\
  fst (findStudentIndex 1 w1) = Ret 0 /\
  fst (searchStudent_try (Some 1) w1) = Ret tt.
Proof. split_and!; [vm_compute; left|reflexivity..]. Qed.

(** ** Whole numbers in single precision *)

Section FloatExact.

Lemma digits2_pos_log2 p : Zpos (digits2_pos p) = Z.log2 (Zpos p) + 1.
Proof.
  destruct p as [p|p|]; simpl; try done.
  - induction p as [p IH|p IH|]; simpl in *; try done; lia.
  - induction p as [p IH|p IH|]; simpl in *; try done; lia.
Qed.

Lemma iter_xO_pow2 d : forall m, Zpos (Pos.iter xO m d) = Zpos m * 2 ^ Zpos d.
Proof.
  induction d as [|d IH] using Pos.peano_ind; intros m.
  - simpl. lia.
  - rewrite Pos.iter_succ, Pos2Z.inj_xO, IH, Pos2Z.inj_succ, Z.pow_succ_r by lia.
    lia.
Qed.

Lemma iter_pos_iter {A} (f : A -> A) n : forall x, SpecFloat.iter_pos f n x = Pos.iter f x n.
Proof.
  induction n as [n IH|n IH|]; intros x; simpl; [|by rewrite !IH|done].
  rewrite !IH. by rewrite Pos.iter_swap, Pos.iter_swap.
Qed.

Lemma shr_exact k : forall m,
  SpecFloat.iter_pos shr_1 k
    {| shr_m := Zpos (Pos.iter xO m k); shr_r := false; shr_s := false |}
  = {| shr_m := Zpos m; shr_r := false; shr_s := false |}.
Proof.
  intros m. rewrite iter_pos_iter. revert m.
  induction k as [|k IH] using Pos.peano_ind; intros m; [done|].
  rewrite Pos.iter_succ, <- Pos.iter_swap, Pos.iter_succ. simpl. apply IH.
Qed.

Lemma fexp_small N :
  0 < N < 2 ^ 24 ->
  fexp Float32.prec Float32.emax (Z.log2 N + 1) = Z.log2 N - 23 /\
  0 <= Z.log2 N <= 23.
Proof.
  intros [H0 H1]. pose proof (Z.log2_nonneg N).
  apply Z.log2_lt_pow2 in H1; [|done].
  unfold fexp, emin, Float32.prec, Float32.emax. lia.
Qed.

Lemma shr_fexp_exact mz ez N :
  0 < N < 2 ^ 24 -> ez <= Z.log2 N - 23 -> Zpos mz = N * 2 ^ (- ez) ->
  shr_fexp Float32.prec Float32.emax (Zpos mz) ez loc_Exact =
    ({| shr_m := N * 2 ^ (23 - Z.log2 N); shr_r := false; shr_s := false |},
     Z.log2 N - 23).
Proof.
  intros HN Hez Hmz. destruct (fexp_small N HN) as [Hfexp Hlog].
  unfold shr_fexp. simpl Zdigits2.
  rewrite digits2_pos_log2, Hmz, Z.log2_mul_pow2 by lia.
  replace (- ez + Z.log2 N + 1 + ez) with (Z.log2 N + 1) by lia.
  rewrite Hfexp. simpl shr_record_of_loc. unfold shr.
  destruct (Z.log2 N - 23 - ez) as [|k|k] eqn:Hk; [|..|lia].
  - assert (ez = Z.log2 N - 23) as -> by lia.
    rewrite <- Hmz. f_equal. f_equal. rewrite Hmz. f_equal. f_equal. lia.
  - set (q := Z.to_pos (N * 2 ^ (23 - Z.log2 N))).
    assert (0 < N * 2 ^ (23 - Z.log2 N)) as Hq.
    { apply Z.mul_pos_pos; [lia|]. apply Z.pow_pos_nonneg; lia. }
    assert (Zpos q = N * 2 ^ (23 - Z.log2 N)) as Hq' by (subst q; lia).
    assert (mz = Pos.iter xO q k) as ->.
    { apply Pos2Z.inj. rewrite iter_xO_pow2, Hmz, Hq', <- Z.mul_assoc.
      rewrite <- Z.pow_add_r by lia. f_equal. f_equal. lia. }
    rewrite <- Hmz, shr_exact, Hq'. f_equal. lia.
Qed.

Lemma binary_round_aux_exact mz ez N :
  0 < N < 2 ^ 24 -> ez <= Z.log2 N - 23 -> Zpos mz = N * 2 ^ (- ez) ->
  binary_round_aux Float32.prec Float32.emax false (Zpos mz) ez loc_Exact
    = exact_float N.
Proof.
  intros HN Hez Hmz. destruct (fexp_small N HN) as [Hfexp Hlog].
  unfold binary_round_aux.
  rewrite (shr_fexp_exact mz ez N) by done. simpl.
  assert (0 < N * 2 ^ (23 - Z.log2 N)) as Hq.
  { apply Z.mul_pos_pos; [lia|]. apply Z.pow_pos_nonneg; lia. }
  destruct (N * 2 ^ (23 - Z.log2 N)) as [|q|q] eqn:Hq'; [lia| |lia].
  rewrite (shr_fexp_exact q (Z.log2 N - 23) N); [|done|lia|].
  - simpl. rewrite Hq'.
    destruct (Z.leb_spec (Z.log2 N - 23) (Float32.emax - Float32.prec)) as [_|H].
    + unfold exact_float. by rewrite Hq'.
    + unfold Float32.emax, Float32.prec in H. lia.
  - rewrite <- Hq'. f_equal. f_equal. lia.
Qed.

Lemma binary_round_exact m e N :
  0 < N < 2 ^ 24 -> e <= 0 -> Zpos m = N * 2 ^ (- e) ->
  binary_round Float32.prec Float32.emax false m e = exact_float N.
Proof.
  intros HN He Hm. destruct (fexp_small N HN) as [Hfexp Hlog].
  unfold binary_round.
  rewrite digits2_pos_log2, Hm, Z.log2_mul_pow2 by lia.
  replace (- e + Z.log2 N + 1 + e) with (Z.log2 N + 1) by lia.
  rewrite Hfexp. unfold shl_align.
  destruct (Z.log2 N - 23 - e) as [|k|k] eqn:Hk.
  - apply binary_round_aux_exact; [done|lia|done].
  - apply binary_round_aux_exact; [done|lia|done].
  - apply binary_round_aux_exact; [done|lia|].
    rewrite iter_xO_pow2, Hm, <- Z.mul_assoc, <- Z.pow_add_r by lia.
    f_equal. f_equal. lia.
Qed.

Lemma of_Z_exact N : 0 < N < 2 ^ 24 -> Float32.of_Z N = exact_float N.
Proof.
  intros HN. unfold Float32.of_Z, binary_normalize.
  destruct N as [|p|p]; [lia| |lia].
  apply binary_round_exact; [done|lia|]. simpl. lia.
Qed.

(** Adding two whole numbers in single precision is exact as long as
    the sum stays below [2^24]. *)
Lemma add_of_Z a b :
  0 <= a -> 0 <= b -> a + b < 2 ^ 24 ->
  Float32.add (Float32.of_Z a) (Float32.of_Z b) = Float32.of_Z (a + b).
Proof.
  intros Ha Hb Hab.
  destruct (Z.eq_dec a 0) as [->|Ha0].
  { destruct (Z.eq_dec b 0) as [->|Hb0]; [done|].
    rewrite Z.add_0_l, (of_Z_exact b) by lia. done. }
  destruct (Z.eq_dec b 0) as [->|Hb0].
  { rewrite Z.add_0_r, (of_Z_exact a) by lia. done. }
  rewrite (of_Z_exact a), (of_Z_exact b), (of_Z_exact (a + b)) by lia.
  destruct (fexp_small a) as [_ Hla]; [lia|].
  destruct (fexp_small b) as [_ Hlb]; [lia|].
  assert (0 < a * 2 ^ (23 - Z.log2 a)) as Hqa.
  { apply Z.mul_pos_pos; [lia|]. apply Z.pow_pos_nonneg; lia. }
  assert (0 < b * 2 ^ (23 - Z.log2 b)) as Hqb.
  { apply Z.mul_pos_pos; [lia|]. apply Z.pow_pos_nonneg; lia. }
  unfold Float32.add, exact_float at 1 2, SFadd.
  set (ez := Z.min (Z.log2 a - 23) (Z.log2 b - 23)).
  assert (forall x, 0 < x -> 0 <= Z.log2 x <= 23 -> 0 < x * 2 ^ (23 - Z.log2 x) ->
            Zpos (fst (shl_align (Z.to_pos (x * 2 ^ (23 - Z.log2 x)))
                         (Z.log2 x - 23) ez)) = x * 2 ^ (- ez) \/
            Z.log2 x - 23 < ez) as Halign.
  { intros x Hx Hlx Hqx. destruct (Z.lt_ge_cases (Z.log2 x - 23) ez); [by right|].
    left. unfold shl_align.
    destruct (ez - (Z.log2 x - 23)) as [|k|k] eqn:Hk; simpl; [|lia|].
    - rewrite Z2Pos.id by done. f_equal. f_equal. lia.
    - rewrite iter_xO_pow2, Z2Pos.id, <- Z.mul_assoc, <- Z.pow_add_r by lia.
      f_equal. f_equal. lia. }
  destruct (Halign a ltac:(lia) Hla Hqa) as [Ea|Hc]; [|subst ez; lia].
  destruct (Halign b ltac:(lia) Hlb Hqb) as [Eb|Hc]; [|subst ez; lia].
  simpl cond_Zopp. rewrite Ea, Eb, <- Z.mul_add_distr_r.
  assert (0 < (a + b) * 2 ^ (- ez)) as Hs.
  { apply Z.mul_pos_pos; [lia|]. apply Z.pow_pos_nonneg; subst ez; lia. }
  unfold binary_normalize.
  destruct ((a + b) * 2 ^ (- ez)) as [|s|s] eqn:Hs'; [lia| |lia].
  apply binary_round_exact; [lia|subst ez; lia|done].
Qed.

(** The float sum of whole numbers is their exact sum, below [2^24]. *)
Lemma fold_add_of_Z zs : forall acc,
  0 <= acc -> Forall (fun z => 0 <= z) zs -> acc + whole_sum zs < 2 ^ 24 ->
  fold_left Float32.add (map Float32.of_Z zs) (Float32.of_Z acc)
    = Float32.of_Z (acc + whole_sum zs).
Proof.
  induction zs as [|z zs IH]; intros acc Hacc Hzs Hsum; simpl in *.
  - by rewrite Z.add_0_r.
  - apply Forall_cons in Hzs as [Hz Hzs].
    assert (0 <= whole_sum zs) as Hpos.
    { clear -Hzs. induction Hzs; simpl; lia. }
    rewrite add_of_Z by lia. rewrite IH by (done || lia). f_equal. lia.
Qed.

End FloatExact.

(** ** Statistics *)

Lemma stats_loop l : forall total maxMarks minMarks,
  fold_left stats_step l (total, maxMarks, minMarks) =
    (fold_left Float32.add (map marks l) total,
     fold_left float_max (map marks l) maxMarks,
     fold_left float_min (map marks l) minMarks).
Proof.
  induction l as [|s l IH]; intros; [done|]. simpl. by rewrite IH.
Qed.

Lemma float_max_step a x :
  Float32.is_nan a = false -> Float32.is_nan x = false ->
  let a' := float_max a x in
  (a' = a \/ a' = x) /\ Float32.is_nan a' = false /\
  Float32.leb a a' = true /\ Float32.leb x a' = true.
Proof.
  intros Ha Hx. unfold float_max. simpl.
  destruct (Float32.ltb a x) eqn:Hlt.
  - split_and!; [by right|done|by apply ltb_leb|by apply leb_refl].
  - rewrite ltb_negb_leb in Hlt by done. apply negb_false_iff in Hlt.
    split_and!; [by left|done|by apply leb_refl|done].
Qed.

Lemma float_min_step a x :
  Float32.is_nan a = false -> Float32.is_nan x = false ->
  let a' := float_min a x in
  (a' = a \/ a' = x) /\ Float32.is_nan a' = false /\
  Float32.leb a' a = true /\ Float32.leb a' x = true.
Proof.
  intros Ha Hx. unfold float_min. simpl.
  destruct (Float32.ltb x a) eqn:Hlt.
  - split_and!; [by right|done|by apply ltb_leb|by apply leb_refl].
  - rewrite ltb_negb_leb in Hlt by done. apply negb_false_iff in Hlt.
    split_and!; [by left|done|by apply leb_refl|done].
Qed.

Lemma fold_float_max l : forall a,
  Float32.is_nan a = false ->
  Forall (fun x => Float32.is_nan x = false) l ->
  let r := fold_left float_max l a in
  (r = a \/ (r ∈ l)) /\ Float32.leb a r = true /\
  forall y, (y ∈ l) -> Float32.leb y r = true.
Proof.
  induction l as [|x l IH]; intros a Ha Hl; simpl.
  - split_and!; [by left|by apply leb_refl|]. intros y Hy. by inversion Hy.
  - apply Forall_cons in Hl as [Hx Hl].
    destruct (float_max_step a x Ha Hx) as (Hcase & Hnan & Hle_a & Hle_x).
    destruct (IH (float_max a x) Hnan Hl) as (Hr & Hge & Hall). simpl in *.
    split_and!.
    + destruct Hr as [->|Hr]; [|right; by right].
      destruct Hcase as [->| ->]; [by left|right; left].
    + by eapply leb_trans.
    + intros y Hy. apply elem_of_cons in Hy as [->|Hy]; [|by auto].
      by eapply leb_trans.
Qed.

Lemma fold_float_min l : forall a,
  Float32.is_nan a = false ->
  Forall (fun x => Float32.is_nan x = false) l ->
  let r := fold_left float_min l a in
  (r = a \/ (r ∈ l)) /\ Float32.leb r a = true /\
  forall y, (y ∈ l) -> Float32.leb r y = true.
Proof.
  induction l as [|x l IH]; intros a Ha Hl; simpl.
  - split_and!; [by left|by apply leb_refl|]. intros y Hy. by inversion Hy.
  - apply Forall_cons in Hl as [Hx Hl].
    destruct (float_min_step a x Ha Hx) as (Hcase & Hnan & Hle_a & Hle_x).
    destruct (IH (float_min a x) Hnan Hl) as (Hr & Hge & Hall). simpl in *.
    split_and!.
    + destruct Hr as [->|Hr]; [|right; by right].
      destruct Hcase as [->| ->]; [by left|right; left].
    + by eapply leb_trans.
    + intros y Hy. apply elem_of_cons in Hy as [->|Hy]; [|by auto].
      by eapply leb_trans.
Qed.

Lemma showStatistics_run w s0 l :
  students w = s0 :: l ->
  showStatistics w =
    (Ret tt,
     with_cout
       (statistics_report (Z.of_nat (length (students w)))
          (float_mean (map marks (students w)))
          (fold_left float_max (map marks (students w)) (marks s0))
          (fold_left float_min (map marks (students w)) (marks s0))) w).
Proof.
  intros Hl. cbv [showStatistics mbind M_bind get_students].
  rewrite Hl, stats_loop.
  cbv [size mbind M_bind mret M_ret get_students print with_cout
       statistics_report float_mean float_sum].
  by rewrite Hl, length_map.
Qed.

(** C9: on the empty store [statistics] only reports that there are no
    students; on every store that is not empty, the marks being numbers, it
    reports the number of records, the mean of the marks (their
    single-precision sum in store order divided by the count), a maximum and
    a minimum of the marks over all records; when the marks are whole
    numbers with a sum below [2^24] the sum is exact, so the mean is the
    single-precision quotient of the exact sum by the count; on the store
    A (1, 50), B (2, 70), C (3, 90) the report is 3, 70, 90 and 50. *)
Theorem statistics_correct (w : world) :
  (students w = [] ->
   showStatistics w = (Ret tt, with_cout [Str "No students found!"; Endl] w)) /\
  (students w <> [] ->
   Forall (fun s => Float32.is_nan (marks s) = false) (students w) ->
   exists mx mn,
     showStatistics w =
       (Ret tt,
        with_cout (statistics_report (Z.of_nat (length (students w)))
                     (float_mean (map marks (students w))) mx mn) w) /\
     is_maximum mx (map marks (students w)) /\
     is_minimum mn (map marks (students w))) /\
  (forall zs,
     map marks (students w) = map Float32.of_Z zs ->
     Forall (fun z => 0 <= z) zs -> whole_sum zs < 2 ^ 24 ->
     float_mean (map marks (students w)) =
       Float32.div (Float32.of_Z (whole_sum zs))
                   (Float32.of_Z (Z.of_nat (length zs)))) /\
  (students w = three_students ->
   showStatistics w =
     (Ret tt,
      with_cout (statistics_report 3 (Float32.of_Z 70) (Float32.of_Z 90)
                   (Float32.of_Z 50)) w)).
Proof.
  split_and!.
  - intros Hl. unfold showStatistics. run_M. by rewrite Hl.
  - intros Hne Hnum.
    destruct (students w) as [|s0 l] eqn:Hl; [done|].
    assert (Forall (fun x => Float32.is_nan x = false) (map marks (s0 :: l)))
      as Hnum'.
    { apply Forall_fmap. exact Hnum. }
    assert (Float32.is_nan (marks s0) = false) as H0.
    { by apply Forall_cons in Hnum as [H0 _]. }
    destruct (fold_float_max _ (marks s0) H0 Hnum') as (Hmx & _ & Hmx_all).
    destruct (fold_float_min _ (marks s0) H0 Hnum') as (Hmn & _ & Hmn_all).
    eexists _, _. split_and!.
    + rewrite (showStatistics_run w s0 l Hl), Hl. reflexivity.
    + split; [|done]. destruct Hmx as [->|Hmx]; [left|done].
    + split; [|done]. destruct Hmn as [->|Hmn]; [left|done].
  - intros zs Hzs Hpos Hsum. unfold float_mean, float_sum.
    rewrite Hzs, length_map.
    by rewrite (fold_add_of_Z zs 0), Z.add_0_l by (done || lia).
  - intros Hl. unfold three_students in Hl.
    rewrite (showStatistics_run w _ _ Hl), Hl. reflexivity.
Qed.

Lemma statistics_correct_witness :
  let w := {| students := three_students; cout := [];
              disk := None; writable := true |} in
  (exists mx mn,
     showStatistics w =
       (Ret tt,
        with_cout (statistics_report (Z.of_nat (length (students w)))
                     (float_mean (map marks (students w))) mx mn) w) /\
     is_maximum mx (map marks (students w)) /\
     is_minimum mn (map marks (students w))) /\
  float_mean (map marks (students w)) =
    Float32.div (Float32.of_Z (whole_sum [50; 70; 90]))
                (Float32.of_Z (Z.of_nat (length [50; 70; 90]))).
Proof.
  intros w. destruct (statistics_correct w) as (_ & Hstats & Hwhole & _).
  split.
  - apply Hstats.
    + simpl. discriminate.
    + simpl. unfold three_students. repeat constructor.
  - apply Hwhole.
    + reflexivity.
    + repeat constructor; lia.
    + reflexivity.
Defined.

(** ** Uniqueness of roll numbers *)

Lemma try_catch_report_students (body : M unit) w :
  students (snd (try_catch body report w)) = students (snd (body w)).
Proof. unfold try_catch. by destruct (body w) as [[[]|e] w']. Qed.

Lemma searchStudent_try_students r w :
  students (snd (searchStudent_try r w)) = students w.
Proof.
  unfold searchStudent_try. run_M. destruct r as [r|]; simpl; [|done].
  by destruct (findStudentIndex_from 0 (students w) r =? -1).
Qed.

Lemma displayAll_students w : students (snd (displayAll w)) = students w.
Proof.
  unfold displayAll. run_M. by destruct (students w) eqn:Hl; simpl; rewrite Hl.
Qed.

Lemma showStatistics_students w : students (snd (showStatistics w)) = students w.
Proof.
  destruct (students w) as [|s0 l] eqn:Hl.
  - unfold showStatistics. run_M. by rewrite Hl.
  - by rewrite (showStatistics_run w s0 l Hl).
Qed.

(** Every menu command keeps the roll numbers distinct. *)
Lemma run_command_NoDup c w :
  NoDup (rollNos w) -> NoDup (rollNos (snd (run_command c w))).
Proof.
  unfold rollNos. intros Hnd. destruct c as [n r m| |r|r n m|r|]; simpl.
  - unfold addStudent. rewrite try_catch_report_students.
    pose proof (addStudent_try_spec n r m w) as Hspec.
    destruct (fst (addStudent_try n r m w)) as [[]|e].
    + destruct Hspec as (r0 & m0 & _ & _ & _ & _ & _ & Hfree & ->).
      rewrite map_app. apply NoDup_app. split_and!; [done| |].
      * intros x Hx Hin. simpl in Hin. apply list_elem_of_singleton in Hin.
        by subst x.
      * simpl. apply NoDup_singleton.
    + destruct Hspec as [-> _]. done.
  - by rewrite displayAll_students.
  - unfold searchStudent.
    by rewrite try_catch_report_students, searchStudent_try_students.
  - unfold updateStudent. rewrite try_catch_report_students.
    pose proof (updateStudent_try_spec r n m w) as Hspec.
    destruct (fst (updateStudent_try r n m w)) as [[]|e].
    + destruct Hspec as (r0 & m0 & k & s & _ & _ & _ & _ & Hk & _ & _ & ->).
      by rewrite (map_rollNo_insert _ k s).
    + destruct Hspec as [-> _]. done.
  - unfold deleteStudent. rewrite try_catch_report_students.
    pose proof (deleteStudent_try_spec r w) as Hspec.
    destruct (fst (deleteStudent_try r w)) as [[]|e].
    + destruct Hspec as (r0 & k & s & _ & _ & _ & _ & ->).
      eapply sublist_NoDup; [exact Hnd|].
      apply (fmap_sublist rollNo), sublist_delete.
    + destruct Hspec as [-> _]. done.
  - by rewrite showStatistics_students.
Qed.

Lemma commands_NoDup cs : forall w,
  NoDup (rollNos w) ->
  NoDup (rollNos (fold_left (fun w c => snd (run_command c w)) cs w)).
Proof.
  induction cs as [|c cs IH]; intros w Hnd; [done|].
  simpl. apply IH. by apply run_command_NoDup.
Qed.

Lemma starts_clean_empty file b :
  starts_clean file -> students (StudentManagementSystem file b) = [].
Proof.
  destruct file as [content|]; simpl; [|done].
  intros He. by rewrite ends_outside_number_load.
Qed.

Lemma destroy_starts_clean w :
  writable w = true ->
  disk (StudentManagementSystem_destroy w)
    = Some (concat (map write_Student (students w))).
Proof.
  intros Hw. unfold StudentManagementSystem_destroy, try_catch.
  by rewrite (saveToFile_run _ Hw).
Qed.

(** C4, as far as it holds: every menu command keeps the roll numbers of
    the store distinct, so every state of a session that starts from no
    file, or from a file that does not end inside a number (every file the
    program itself saves is one), has at most one record per roll number. *)
Theorem rollNo_unique_preserved (w : world) (c : command)
    (file : option (list ascii)) (cs : list command) :
  NoDup (rollNos w) -> starts_clean file ->
  NoDup (rollNos (snd (run_command c w))) /\
  NoDup (rollNos (session file cs)) /\
  (writable w = true -> starts_clean (disk (StudentManagementSystem_destroy w))).
Proof.
  intros Hnd Hfile. split_and!.
  - by apply run_command_NoDup.
  - unfold session. apply commands_NoDup. unfold rollNos.
    rewrite (starts_clean_empty _ _ Hfile). apply NoDup_nil_2.
  - intros Hw. rewrite (destroy_starts_clean _ Hw). simpl.
    apply saved_file_ends.
Qed.

Lemma rollNo_unique_preserved_witness :
  NoDup (rollNos (snd (run_command (Add "Carol" (Some 3) (Some f32_42))
                         two_students))) /\
  NoDup (rollNos (session (disk (StudentManagementSystem_destroy two_students))
                    [Add "Dan" (Some 4) (Some f32_42)])) /\
  (writable two_students = true ->
   starts_clean (disk (StudentManagementSystem_destroy two_students))).
Proof.
  apply (rollNo_unique_preserved two_students).
  - vm_compute. distinct_rollNos.
  - apply saved_file_ends.
Defined.

(** C4 fails as stated: the store loaded from [duplicates_file] has two
    records with roll number 1. *)
Lemma load_admits_duplicates :
  students (session (Some duplicates_file) []) =
    [{| name := "A"; rollNo := 1; marks := Float32.of_Z 5 |};
     {| name := "B"; rollNo := 1; marks := Float32.of_Z 6 |}] /\
  ~ NoDup (rollNos (session (Some duplicates_file) [])).
Proof.
  split; [reflexivity|]. vm_compute. intros Hnd.
  apply NoDup_cons in Hnd as [Hn _]. apply Hn. left.
Qed.

(** ** Persistence *)

(** C2, as far as it holds: for every file that does not end inside a
    number (an empty file, or one whose last character is a newline, as in
    every file that [save] writes) the loading loop ends by the corruption
    exception, and [load] takes the corruption branch and leaves the store
    empty; for at the end of the file the name of a next record cannot be
    read, which counts as a failure. *)
Theorem load_terminated_file_is_corrupt (w : world) (content : list ascii) :
  disk w = Some content -> ends_outside_number content ->
  (exists w', load_loop (S (length content)) (ios.open content)
                Student_default w = (Throw corrupted, w')) /\
  loadFromFile w = (Ret tt, with_students [] (with_cout warning w)) /\
  (forall ifs s, ios.buf ifs = [] ->
     read_fields ifs s = Throw {| what := "Failed to read name from file" |}) /\
  (forall l, ends_outside_number (concat (map write_Student l))).
Proof.
  intros Hd He.
  assert (parse_failure (ios.open content) Student_default) as Hp.
  { by apply (ends_outside_number_parse_failure (length content)). }
  split_and!.
  - apply load_loop_parse_failure; [done|]. simpl. lia.
  - by apply loadFromFile_parse_failure with (content := content).
  - apply read_fields_at_end.
  - apply saved_file_ends.
Qed.

Lemma load_terminated_file_is_corrupt_witness :
  let w := {| students := []; cout := [];
              disk := Some two_students_file; writable := true |} in
  (exists w', load_loop (S (length two_students_file))
                (ios.open two_students_file) Student_default w
              = (Throw corrupted, w')) /\
  loadFromFile w = (Ret tt, with_students [] (with_cout warning w)).
Proof.
  intros w.
  destruct (load_terminated_file_is_corrupt w two_students_file)
    as (H1 & H2 & _).
  - reflexivity.
  - intros c. vm_compute. intros [= <-]. reflexivity.
  - by split.
Defined.

(** C2 fails as stated: a file of two complete records whose last line
    is not terminated is loaded without any error, and the store holds its
    first record. *)
Lemma load_unterminated_file_succeeds :
  let w := StudentManagementSystem (Some unterminated_file) true in
  students w = [{| name := "A"; rollNo := 1; marks := Float32.of_Z 5 |}] /\
  cout w = [Str "Data loaded successfully. "; Num 1;
            Str " records found."; Endl] /\
  students w <> [] /\ cout w <> warning.
Proof. by split_and!. Qed.

(** C1 at the example of the specification: the store Alice (1, 88.5),
    Bob (2, 42) is saved as six lines, and loading that file gives the empty
    store and the corruption warning, not the two records. *)
Theorem save_then_load_loses_records :
  let saved := StudentManagementSystem_destroy two_students in
  let reloaded := StudentManagementSystem (disk saved) true in
  students two_students =
    [{| name := "Alice"; rollNo := 1; marks := f32_88_5 |};
     {| name := "Bob"; rollNo := 2; marks := f32_42 |}] /\
  disk saved = Some two_students_file /\
  students reloaded = [] /\ cout reloaded = warning /\
  students reloaded <> students two_students.
Proof.
  intros saved reloaded. split_and!.
  - vm_compute. reflexivity.
  - vm_compute. reflexivity.
  - vm_compute. reflexivity.
  - vm_compute. reflexivity.
  - vm_compute. discriminate.
Qed.

(** The same for every store: what is saved is never loaded again. *)
Lemma save_then_load_empty w b :
  writable w = true ->
  StudentManagementSystem (disk (StudentManagementSystem_destroy w)) b =
    {| students := []; cout := warning;
       disk := Some (concat (map write_Student (students w))); writable := b |}.
Proof.
  intros Hw. rewrite (destroy_starts_clean _ Hw).
  apply ends_outside_number_load, saved_file_ends.
Qed.

(** * Further properties *)

(** ** What the operations leave alone *)

Lemma extends_refl w : extends w w.
Proof. split_and!; [|done..]. exists []. by rewrite app_nil_r. Qed.

Lemma extends_trans w1 w2 w3 : extends w1 w2 -> extends w2 w3 -> extends w1 w3.
Proof.
  intros ([i1 H1] & D1 & W1) ([i2 H2] & D2 & W2). split_and!.
  - exists (i1 ++ i2). by rewrite H2, H1, app_assoc.
  - congruence.
  - congruence.
Qed.

Lemma extends_print items w : extends w (snd (print items w)).
Proof. split_and!; [|done..]. by exists items. Qed.

Lemma extends_set_students l w : extends w (snd (set_students l w)).
Proof. split_and!; [|done..]. exists []. simpl. by rewrite app_nil_r. Qed.

Lemma tame_bind {A B} (m : M A) (f : A -> M B) :
  tame m -> (forall a, tame (f a)) -> tame (m ≫= f).
Proof.
  intros Hm Hf w. unfold mbind, M_bind.
  pose proof (Hm w) as H1. destruct (m w) as [[a|e] w1]; simpl in *; [|done].
  eapply extends_trans; [exact H1|]. apply Hf.
Qed.

Lemma tame_ret {A} (a : A) : tame (mret a).
Proof. intros w. apply extends_refl. Qed.

Lemma tame_throw {A} msg : tame (@throw A msg).
Proof. intros w. apply extends_refl. Qed.

Lemma tame_throw_if c msg : tame (throw_if c msg).
Proof. unfold throw_if. destruct c; [apply tame_throw|apply tame_ret]. Qed.

Lemma tame_print items : tame (print items).
Proof. intros w. apply extends_print. Qed.

Lemma tame_lift {A} (r : result A) : tame (lift r).
Proof. intros w. apply extends_refl. Qed.

Lemma tame_cin_read {A} (x : option A) msg : tame (cin_read x msg).
Proof. destruct x; [apply tame_ret|apply tame_throw]. Qed.

Lemma tame_get_students : tame get_students.
Proof. intros w. apply extends_refl. Qed.

Lemma tame_set_students l : tame (set_students l).
Proof. intros w. apply extends_set_students. Qed.

Lemma tame_try_catch {A} (body : M A) h :
  tame body -> (forall e, tame (h e)) -> tame (try_catch body h).
Proof.
  intros Hb Hh w. unfold try_catch.
  pose proof (Hb w) as H1. destruct (body w) as [[a|e] w1]; simpl in *; [done|].
  eapply extends_trans; [exact H1|]. apply Hh.
Qed.

Ltac tame_steps :=
  repeat first
    [ apply tame_bind; [|intros ?]
    | apply tame_try_catch; [|intros ?]
    | apply tame_ret | apply tame_throw | apply tame_throw_if
    | apply tame_print | apply tame_lift | apply tame_cin_read
    | apply tame_get_students | apply tame_set_students
    | progress unfold report, push_back, size, findStudentIndex, at_index
    | match goal with |- tame (match ?x with _ => _ end) => destruct x end
    | match goal with |- tame (let '(_, _) := ?x in _) => destruct x end ].

Lemma tame_run_command c : tame (run_command c).
Proof.
  destruct c; simpl;
    unfold addStudent, addStudent_try, displayAll, searchStudent,
      searchStudent_try, updateStudent, updateStudent_try, deleteStudent,
      deleteStudent_try, showStatistics; tame_steps.
Qed.

Lemma try_catch_report_returns (body : M unit) w :
  fst (try_catch body report w) = Ret tt.
Proof. unfold try_catch. by destruct (body w) as [[[]|e] w']. Qed.

Lemma run_command_returns c w : fst (run_command c w) = Ret tt.
Proof.
  destruct c; simpl; try apply try_catch_report_returns.
  - unfold displayAll. run_M. by destruct (students w).
  - destruct (students w) as [|s0 l] eqn:Hl.
    + unfold showStatistics. run_M. by rewrite Hl.
    + by rewrite (showStatistics_run w s0 l Hl).
Qed.

Lemma commands_extends cs : forall w,
  extends w (fold_left (fun w c => snd (run_command c w)) cs w).
Proof.
  induction cs as [|c cs IH]; intros w; simpl; [apply extends_refl|].
  eapply extends_trans; [apply tame_run_command|apply IH].
Qed.

Lemma tame_loadFromFile : tame loadFromFile.
Proof.
  intros w0. unfold loadFromFile. destruct (disk w0) as [content|] eqn:Hd0;
    [|apply extends_print].
  unfold try_catch. unfold mbind at 1. unfold M_bind at 1.
  destruct (load_loop (S (length content)) (ios.open content)
              Student_default w0) as [[[file0|]|e] w1] eqn:Hloop;
    apply load_loop_frame in Hloop; rewrite Hloop.
  - destruct (ios.bad file0); simpl; (split_and!; [by eexists|done..]).
  - split_and!; [|done..]. exists []. simpl. by rewrite app_nil_r.
  - split_and!; [by eexists|done..].
Qed.

Lemma construct_extends file b :
  extends {| students := []; cout := []; disk := file; writable := b |}
          (StudentManagementSystem file b).
Proof.
  unfold StudentManagementSystem.
  apply (tame_try_catch loadFromFile); [apply tame_loadFromFile|].
  intros e. apply tame_print.
Qed.

Lemma session_extends file cs :
  extends {| students := []; cout := []; disk := file; writable := true |}
          (session file cs).
Proof.
  eapply extends_trans; [apply construct_extends|apply commands_extends].
Qed.

(** X3: no menu operation lets an exception escape, and none touches the
    file: it returns normally, appends to the output, and leaves the content
    of the file and the permission to write it as they were; so the file is
    the same throughout a session. *)
Theorem command_only_prints (c : command) (w : world)
    (file : option (list ascii)) (cs : list command) :
  fst (run_command c w) = Ret tt /\
  (exists items, cout (snd (run_command c w)) = cout w ++ items) /\
  disk (snd (run_command c w)) = disk w /\
  writable (snd (run_command c w)) = writable w /\
  disk (session file cs) = file /\ writable (session file cs) = true.
Proof.
  destruct (tame_run_command c w) as (Hc & Hd & Hw).
  destruct (session_extends file cs) as (_ & Hd' & Hw').
  split_and!; [apply run_command_returns|done..].
Qed.

(** ** Looking up a roll number *)

(** X1: [findStudentIndex] returns -1 exactly when no record has the
    roll number; otherwise it returns the position, within the vector, of
    the first record that has it.  It changes nothing. *)
Theorem findStudentIndex_first_match (w : world) (r : Z) :
  exists index,
    findStudentIndex r w = (Ret index, w) /\
    (index = -1 <-> (r ∉ map rollNo (students w))) /\
    (index <> -1 ->
     0 <= index < Z.of_nat (length (students w)) /\
     exists s, students w !! Z.to_nat index = Some s /\ rollNo s = r /\
       forall j s', (j < Z.to_nat index)%nat ->
         students w !! j = Some s' -> rollNo s' <> r).
Proof.
  exists (findStudentIndex_from 0 (students w) r).
  split_and!; [done|apply findStudentIndex_absent|].
  intros Hne. apply findStudentIndex_present in Hne as (k & s & -> & Hk & Hs & Hfirst).
  rewrite Nat2Z.id. split.
  - apply lookup_lt_Some in Hk. lia.
  - exists s. split_and!; [done..|].
    intros j s' Hj Hj' Heq. apply Hfirst.
    apply list_elem_of_fmap. exists s'. split; [done|].
    apply list_elem_of_lookup. exists j. rewrite lookup_take_lt by done. done.
Qed.

(** X2: [searchStudent] never changes the records and always returns
    normally.  After the prompt it prints the error "Invalid input for roll
    number" when the number cannot be read, the error "Student not found"
    when no record has the roll number, and otherwise the table header and
    the first record with that roll number. *)
Theorem search_reports (w : world) (r_in : option Z) :
  let w1 := snd (searchStudent r_in w) in
  let prompt := Str "Enter Roll No to search: " in
  fst (searchStudent r_in w) = Ret tt /\
  students w1 = students w /\
  (r_in = None ->
   cout w1 = cout w ++ [prompt; Str "Error: ";
                        Str "Invalid input for roll number"; Endl]) /\
  (forall r, r_in = Some r -> (r ∉ map rollNo (students w)) ->
   cout w1 = cout w ++ [prompt; Str "Error: "; Str "Student not found"; Endl]) /\
  (forall r k s, r_in = Some r ->
   students w !! k = Some s -> rollNo s = r ->
   (r ∉ map rollNo (take k (students w))) ->
   cout w1 = cout w ++ [prompt; Endl; Str "Student Found:"; Endl]
               ++ table_header ++ display s).
Proof.
  intros w1 prompt. subst w1 prompt. split_and!.
  - apply try_catch_report_returns.
  - unfold searchStudent.
    by rewrite try_catch_report_students, searchStudent_try_students.
  - intros ->. unfold searchStudent, searchStudent_try. run_M.
    by rewrite <- app_assoc.
  - intros r -> Habs. unfold searchStudent.
    rewrite (try_catch_report _ _ not_found)
      by (by rewrite searchStudent_absent).
    rewrite searchStudent_absent by done. simpl. by rewrite <- app_assoc.
  - intros r k s -> Hk Hs Hfirst.
    rewrite (searchStudent_found w r k s); [done| |done].
    destruct (findStudentIndex_from_spec (students w) r 0)
      as [[_ Habs]|(k' & s' & Hf & Hk' & Hs' & Hfirst')]; [lia| |].
    + exfalso. apply Habs. apply list_elem_of_fmap. exists s.
      split; [done|]. by eapply list_elem_of_lookup_2.
    + rewrite Hf. f_equal.
      destruct (Nat.lt_trichotomy k k') as [Hlt|[->|Hgt]]; [|done|].
      * exfalso. apply Hfirst'. apply list_elem_of_fmap. exists s.
        split; [done|]. apply list_elem_of_lookup. exists k.
        by rewrite lookup_take_lt.
      * exfalso. apply Hfirst. apply list_elem_of_fmap. exists s'.
        split; [done|]. apply list_elem_of_lookup. exists k'.
        by rewrite lookup_take_lt.
Qed.

Lemma search_reports_witness :
  let w := two_students in
  cout (snd (searchStudent (Some 2) w)) =
    cout w ++ [Str "Enter Roll No to search: "; Endl; Str "Student Found:"; Endl]
      ++ table_header
      ++ display {| name := "Bob"; rollNo := 2; marks := f32_42 |}.
Proof.
  intros w.
  destruct (search_reports w (Some 2)) as (_ & _ & _ & _ & Hfound).
  apply (Hfound 2 1%nat); [reflexivity..|].
  vm_compute. distinct_rollNos.
Defined.

Lemma findStudentIndex_first_match_witness :
  exists s, students two_students !! Z.to_nat 1 = Some s /\ rollNo s = 2 /\
    forall j s', (j < Z.to_nat 1)%nat ->
      students two_students !! j = Some s' -> rollNo s' <> 2.
Proof.
  destruct (findStudentIndex_first_match two_students 2)
    as (index & Hrun & _ & Hfound).
  injection Hrun as <-. apply Hfound. vm_compute. discriminate.
Defined.

(** ** The records stay valid *)

Lemma run_command_valid c w :
  Forall record_valid (students w) ->
  Forall record_valid (students (snd (run_command c w))).
Proof.
  intros Hv. destruct c as [n r m| |r|r n m|r|]; simpl.
  - unfold addStudent. rewrite try_catch_report_students.
    pose proof (addStudent_try_spec n r m w) as Hspec.
    destruct (fst (addStudent_try n r m w)) as [[]|e].
    + destruct Hspec as (r0 & m0 & _ & _ & Hn & Hr & Hm & _ & ->).
      apply Forall_app. split; [done|]. apply Forall_singleton.
      split_and!; [by apply str_nonempty_spec|done..].
    + destruct Hspec as [-> _]. done.
  - by rewrite displayAll_students.
  - unfold searchStudent.
    by rewrite try_catch_report_students, searchStudent_try_students.
  - unfold updateStudent. rewrite try_catch_report_students.
    pose proof (updateStudent_try_spec r n m w) as Hspec.
    destruct (fst (updateStudent_try r n m w)) as [[]|e].
    + destruct Hspec as (r0 & m0 & k & s & _ & _ & Hn & Hm & Hk & _ & _ & ->).
      apply Forall_insert; [done|].
      pose proof (Forall_lookup_1 _ _ _ _ Hv Hk) as (_ & Hr & _).
      split_and!; [by apply str_nonempty_spec|done..].
    + destruct Hspec as [-> _]. done.
  - unfold deleteStudent. rewrite try_catch_report_students.
    pose proof (deleteStudent_try_spec r w) as Hspec.
    destruct (fst (deleteStudent_try r w)) as [[]|e].
    + destruct Hspec as (r0 & k & s & _ & _ & _ & _ & ->).
      by apply Forall_delete.
    + destruct Hspec as [-> _]. done.
  - by rewrite showStatistics_students.
Qed.

Lemma commands_valid cs : forall w,
  Forall record_valid (students w) ->
  Forall record_valid
    (students (fold_left (fun w c => snd (run_command c w)) cs w)).
Proof.
  induction cs as [|c cs IH]; intros w Hv; [done|].
  simpl. apply IH. by apply run_command_valid.
Qed.

(** X5: the menu operations keep every record within the constraints
    they check: a name that is not empty, a roll number that is not
    negative, marks neither below 0 nor above 100.  So every record in every
    state of a session that starts from no file, or from a file that does
    not end inside a number, satisfies them. *)
Theorem records_stay_valid (w : world) (c : command)
    (file : option (list ascii)) (cs : list command) :
  Forall record_valid (students w) -> starts_clean file ->
  Forall record_valid (students (snd (run_command c w))) /\
  Forall record_valid (students (session file cs)).
Proof.
  intros Hv Hfile. split; [by apply run_command_valid|].
  unfold session. apply commands_valid.
  rewrite (starts_clean_empty _ _ Hfile). constructor.
Qed.

Lemma records_stay_valid_witness :
  Forall record_valid
    (students (snd (run_command (Update (Some 1) "Alicia" (Some f32_42))
                      two_students))) /\
  Forall record_valid
    (students (session None [Add "Eve" (Some 5) (Some f32_88_5);
                             Add "" (Some 6) (Some f32_42);
                             Add "Fay" (Some (-1)) (Some f32_42);
                             Add "Gus" (Some 7) (Some f32_100_01)])).
Proof.
  apply (records_stay_valid two_students).
  - vm_compute. repeat constructor; discriminate.
  - exact I.
Defined.

(** ** Operations in sequence *)

(** X6: deleting a roll number right after adding it gives back the
    records as they were, in the same order: for every valid triple whose
    roll number is free, [add] then [delete] of that number is the identity
    on the store. *)
Theorem add_then_delete (w : world) (n : string) (r : Z) (m : spec_float) :
  n <> "" -> 0 <= r -> marks_rejected m = false ->
  (r ∉ map rollNo (students w)) ->
  let w1 := snd (addStudent n (Some r) (Some m) w) in
  fst (deleteStudent_try (Some r) w1) = Ret tt /\
  students (snd (deleteStudent (Some r) w1)) = students w.
Proof.
  intros Hn Hr Hm Hfree w1.
  assert (fst (addStudent_try n (Some r) (Some m) w) = Ret tt) as Hadd.
  { rewrite addStudent_try_fst, Hm.
    apply str_nonempty_spec in Hn as ->. apply Z.ltb_ge in Hr as ->.
    by apply findStudentIndex_absent in Hfree as ->. }
  pose proof (addStudent_try_spec n (Some r) (Some m) w) as Hspec.
  rewrite Hadd in Hspec.
  destruct Hspec as (r0 & m0 & [= <-] & [= <-] & _ & _ & _ & _ & Hst).
  assert (students w1 = students w ++ [{| name := n; rollNo := r; marks := m |}])
    as Hw1.
  { subst w1. unfold addStudent. by rewrite (try_catch_Ret _ _ _ _ Hadd). }
  clearbody w1.
  pose proof (deleteStudent_try_spec (Some r) w1) as Hdel.
  destruct (fst (deleteStudent_try (Some r) w1)) as [[]|e] eqn:Hres.
  - split; [done|].
    destruct Hdel as (r0 & k & s & [= <-] & Hk & Hs & Hfirst & Hst').
    unfold deleteStudent. rewrite (try_catch_Ret _ _ _ _ Hres), Hst', Hw1.
    assert (k = length (students w)) as ->.
    { rewrite Hw1 in Hk, Hfirst.
      destruct (Nat.lt_trichotomy k (length (students w))) as [Hlt|[->|Hgt]];
        [|done|].
      - exfalso. apply Hfree. rewrite lookup_app_l in Hk by done.
        apply list_elem_of_fmap. exists s. split; [done|].
        by eapply list_elem_of_lookup_2.
      - apply lookup_lt_Some in Hk. rewrite length_app in Hk. simpl in Hk. lia. }
    rewrite (delete_middle (students w) []). by rewrite app_nil_r.
  - destruct Hdel as (_ & [H|(_ & r0 & [= <-] & Habs)]); [done|].
    exfalso. apply Habs. rewrite Hw1, map_app. apply elem_of_app. right.
    simpl. left.
Qed.

Lemma add_then_delete_witness :
  let w1 := snd (addStudent "Carol" (Some 3) (Some f32_42) two_students) in
  fst (deleteStudent_try (Some 3) w1) = Ret tt /\
  students (snd (deleteStudent (Some 3) w1)) = students two_students.
Proof.
  apply (add_then_delete two_students "Carol" 3 f32_42).
  - discriminate.
  - lia.
  - reflexivity.
  - vm_compute. distinct_rollNos.
Defined.

Lemma findStudentIndex_from_rollNos l : forall l' i r,
  map rollNo l = map rollNo l' ->
  findStudentIndex_from i l r = findStudentIndex_from i l' r.
Proof.
  induction l as [|s l IH]; intros [|s' l'] i r Hmap; try done.
  simpl in *. injection Hmap as Hs Hl. rewrite Hs.
  destruct (rollNo s' =? r); [done|]. by apply IH.
Qed.

Lemma updateStudent_run w r n m k s :
  n <> "" -> marks_rejected m = false ->
  findStudentIndex_from 0 (students w) r = Z.of_nat k ->
  students w !! k = Some s ->
  fst (updateStudent_try (Some r) n (Some m) w) = Ret tt /\
  students (snd (updateStudent (Some r) n (Some m) w)) =
    <[k := {| name := n; rollNo := rollNo s; marks := m |}]> (students w).
Proof.
  intros Hn Hm Hf Hk. apply str_nonempty_spec in Hn.
  assert (fst (updateStudent_try (Some r) n (Some m) w) = Ret tt /\
          students (snd (updateStudent_try (Some r) n (Some m) w)) =
            <[k := {| name := n; rollNo := rollNo s; marks := m |}]> (students w))
    as [Hres Hst].
  { unfold updateStudent_try, setName, setMarks. run_M. rewrite Hf.
    destruct (Z.eqb_spec (Z.of_nat k) (-1)); [lia|]. simpl.
    rewrite Hn. simpl. rewrite Hm. simpl. rewrite Nat2Z.id, Hk. simpl.
    rewrite list_lookup_insert_eq by (by eapply lookup_lt_Some). simpl.
    by rewrite list_insert_insert_eq. }
  split; [done|]. unfold updateStudent.
  by rewrite (try_catch_Ret _ _ _ _ Hres).
Qed.

(** X7: of two successive updates of the same roll number the last one
    wins: for valid new values, updating a record twice leaves the store
    exactly as the second update alone would. *)
Theorem update_last_wins (w : world) (r : Z) (n1 n2 : string)
    (m1 m2 : spec_float) :
  n1 <> "" -> n2 <> "" ->
  marks_rejected m1 = false -> marks_rejected m2 = false ->
  (r ∈ map rollNo (students w)) ->
  students (snd (updateStudent (Some r) n2 (Some m2)
                   (snd (updateStudent (Some r) n1 (Some m1) w)))) =
  students (snd (updateStudent (Some r) n2 (Some m2) w)).
Proof.
  intros Hn1 Hn2 Hm1 Hm2 Hpres.
  destruct (findStudentIndex_from_spec (students w) r 0)
    as [[_ Habs]|(k & s & Hf & Hk & Hs & _)]; [lia|done|].
  rewrite Z.add_0_l in Hf.
  destruct (updateStudent_run w r n1 m1 k s Hn1 Hm1 Hf Hk) as [_ H1].
  destruct (updateStudent_run w r n2 m2 k s Hn2 Hm2 Hf Hk) as [_ H2].
  set (w1 := snd (updateStudent (Some r) n1 (Some m1) w)) in *.
  set (s1 := {| name := n1; rollNo := rollNo s; marks := m1 |}) in *.
  assert (findStudentIndex_from 0 (students w1) r = Z.of_nat k) as Hf1.
  { rewrite H1, <- Hf. apply findStudentIndex_from_rollNos.
    by apply (map_rollNo_insert _ k s). }
  assert (students w1 !! k = Some s1) as Hk1.
  { rewrite H1. apply list_lookup_insert_eq. by eapply lookup_lt_Some. }
  destruct (updateStudent_run w1 r n2 m2 k s1 Hn2 Hm2 Hf1 Hk1) as [_ H12].
  rewrite H12, H2, H1. by rewrite list_insert_insert_eq.
Qed.

Lemma update_last_wins_witness :
  students (snd (updateStudent (Some 2) "Robert" (Some f32_88_5)
                   (snd (updateStudent (Some 2) "Bobby" (Some f32_42)
                           two_students)))) =
  students (snd (updateStudent (Some 2) "Robert" (Some f32_88_5) two_students)).
Proof.
  apply update_last_wins; [discriminate|discriminate|reflexivity|reflexivity|].
  vm_compute. right. left.
Defined.

Lemma searchStudent_students r w :
  students (snd (searchStudent r w)) = students w.
Proof.
  unfold searchStudent, searchStudent_try. run_M.
  destruct r as [r0|]; simpl; [|done].
  destruct (findStudentIndex_from 0 (students w) r0 =? -1); simpl; [done|].
  by destruct (students w !! Z.to_nat (findStudentIndex_from 0 (students w) r0)).
Qed.

(** ** The whole program *)

Lemma run_command_students c w w' :
  students w = students w' ->
  students (snd (run_command c w)) = students (snd (run_command c w')).
Proof.
  intros H. destruct c as [n r m| |r|r n m|r|]; simpl.
  - unfold addStudent, addStudent_try, Student_new. run_M. rewrite <- H.
    destruct (str_empty n); simpl; [done|].
    destruct r as [r|]; simpl; [|done].
    destruct (r <? 0); simpl; [done|].
    destruct m as [m|]; simpl; [|done].
    destruct (marks_rejected m); simpl; [done|].
    destruct (findStudentIndex_from 0 (students w) r =? -1); simpl; [|done].
    by rewrite H.
  - by rewrite !displayAll_students.
  - by rewrite !searchStudent_students.
  - unfold updateStudent, updateStudent_try, setName, setMarks. run_M.
    rewrite <- H.
    destruct r as [r|]; simpl; [|done].
    destruct (findStudentIndex_from 0 (students w) r =? -1); simpl; [done|].
    destruct (str_empty n); simpl; [done|].
    destruct m as [m|]; simpl; [|done].
    destruct (marks_rejected m); simpl; [done|].
    by repeat (case_match; simpl in *; simplify_eq).
  - unfold deleteStudent, deleteStudent_try. run_M. rewrite <- H.
    destruct r as [r|]; simpl; [|done].
    destruct (findStudentIndex_from 0 (students w) r =? -1); simpl; [done|].
    by rewrite H.
  - by rewrite !showStatistics_students.
Qed.

Lemma menu_round_students rd w :
  students (snd (menu_round rd w)) =
    match command_of rd with
    | Some c => students (snd (run_command c w))
    | None => students w
    end.
Proof.
  assert (forall c, students (snd (try_catch (run_command c)
            (fun e => print [Str "System Error: "; Str (what e); Endl])
            (snd (print menu_text w)))) = students (snd (run_command c w)))
    as Hrun.
  { intros c. rewrite (try_catch_Ret _ _ _ tt) by apply run_command_returns.
    by apply run_command_students. }
  unfold menu_round, command_of.
  destruct (choice_in rd) as [z|]; [|done].
  destruct z as [|p|p]; [done| |done].
  do 3 (try destruct p as [p|p|]; try done).
  - apply (Hrun (Delete _)).
  - apply (Hrun (Search _)).
  - apply (Hrun Statistics).
  - apply (Hrun (Update _ _ _)).
  - apply (Hrun DisplayAll).
  - apply (Hrun (Add _ _ _)).
Qed.

Lemma load_loop_students fuel : forall file s w1 w2,
  students w1 = students w2 ->
  fst (load_loop fuel file s w1) = fst (load_loop fuel file s w2) /\
  students (snd (load_loop fuel file s w1)) =
    students (snd (load_loop fuel file s w2)).
Proof.
  induction fuel as [|k IH]; intros file s w1 w2 H; simpl; run_M; [done|].
  destruct (read_Student file s) as [[file' s']|e]; [|done].
  destruct (ios.fail file'); [done|]. apply IH. simpl. by rewrite H.
Qed.

Lemma loadFromFile_students w1 w2 :
  students w1 = students w2 -> disk w1 = disk w2 ->
  fst (loadFromFile w1) = fst (loadFromFile w2) /\
  students (snd (loadFromFile w1)) = students (snd (loadFromFile w2)).
Proof.
  intros H Hd. unfold loadFromFile. rewrite <- Hd.
  destruct (disk w1) as [content|]; [|done].
  generalize (S (length content)). intros fuel.
  unfold try_catch, mbind, M_bind.
  destruct (load_loop_students fuel (ios.open content) Student_default w1 w2 H)
    as [Hr Hs].
  destruct (load_loop fuel (ios.open content) Student_default w1) as [r1 w1'].
  destruct (load_loop fuel (ios.open content) Student_default w2) as [r2 w2'].
  simpl in Hr, Hs. subst r2. destruct r1 as [[f|]|e]; run_M; try done.
  by destruct (ios.bad f).
Qed.

(** Which records are loaded does not depend on whether the file can be
    written later. *)
Lemma construct_students file b :
  students (StudentManagementSystem file b) =
    students (StudentManagementSystem file true).
Proof.
  unfold StudentManagementSystem, try_catch.
  set (w1 := {| students := []; cout := []; disk := file; writable := b |}).
  set (w2 := {| students := []; cout := []; disk := file; writable := true |}).
  destruct (loadFromFile_students w1 w2 eq_refl eq_refl) as [Hr Hs].
  destruct (loadFromFile w1) as [r1 w1'], (loadFromFile w2) as [r2 w2'].
  simpl in Hr, Hs. subst r2. by destruct r1.
Qed.

Lemma tame_menu_round rd : tame (menu_round rd).
Proof.
  unfold menu_round. apply tame_bind; [apply tame_print|]. intros _.
  apply tame_try_catch; [|intros e; apply tame_print].
  apply tame_bind; [apply tame_cin_read|]. intros z.
  destruct z as [|p|p]; try apply tame_print.
  do 3 (try destruct p as [p|p|]; try apply tame_print).
  - apply (tame_run_command (Delete _)).
  - apply (tame_run_command (Search _)).
  - apply (tame_run_command Statistics).
  - apply (tame_run_command (Update _ _ _)).
  - apply (tame_run_command DisplayAll).
  - apply (tame_run_command (Add _ _ _)).
Qed.

Lemma commands_students cs : forall w w',
  students w = students w' ->
  students (fold_left (fun w c => snd (run_command c w)) cs w) =
  students (fold_left (fun w c => snd (run_command c w)) cs w').
Proof.
  induction cs as [|c cs IH]; intros w w' H; simpl; [done|].
  apply IH. by apply run_command_students.
Qed.

(** The loop of [main] does to the records what its commands do, and
    leaves the file alone. *)
Lemma main_loop_spec script : forall w w',
  main_loop script w = Some w' ->
  students w' =
    students (fold_left (fun w c => snd (run_command c w))
                (commands_before_exit script) w) /\
  extends w w'.
Proof.
  induction script as [|rd script IH]; intros w w' H; simpl in *; [done|].
  pose proof (menu_round_students rd w) as Hst.
  pose proof (tame_menu_round rd w) as Hext.
  assert (main_loop script (snd (menu_round rd w)) = Some w' ->
    students w' =
      students (fold_left (fun w c => snd (run_command c w))
        match command_of rd with
        | Some c => c :: commands_before_exit script
        | None => commands_before_exit script
        end w) /\ extends w w') as Hgo.
  { intros H'. apply IH in H' as [H1 H2]. split.
    - rewrite H1. destruct (command_of rd) as [c|]; simpl;
        by apply commands_students.
    - by eapply extends_trans. }
  destruct (choice_in rd) as [z|] eqn:Hz; [|by apply Hgo in H].
  destruct (decide (z = 7)) as [->|Hne].
  - injection H as <-. split; [|done]. simpl. rewrite Hst.
    unfold command_of. by rewrite Hz.
  - assert (main_loop script (snd (menu_round rd w)) = Some w') as H'.
    { destruct z as [|p|p]; try done.
      do 3 (try destruct p as [p|p|]; try done). }
    apply Hgo in H'.
    destruct z as [|p|p]; try done.
    do 3 (try destruct p as [p|p|]; try done).
Qed.

(** The loop ends exactly when some round chooses 7. *)
Lemma main_loop_returns script : forall w,
  is_Some (main_loop script w) <->
  Exists (fun rd => choice_in rd = Some 7) script.
Proof.
  induction script as [|rd script IH]; intros w; simpl.
  { split; [by intros [? [=]]|]. intros H. by apply Exists_nil in H. }
  rewrite Exists_cons.
  destruct (choice_in rd) as [z|] eqn:Hz.
  - destruct (decide (z = 7)) as [->|Hne].
    + split; [by left|by eexists].
    + assert (forall X Y : option world,
        match z with 7 => X | _ => Y end = Y) as Hm.
      { intros X Y. destruct z as [|p|p]; try done.
        do 3 (try destruct p as [p|p|]; try done). }
      rewrite Hm, IH. split; [by right|].
      intros [H|H]; [by simplify_eq|done].
  - rewrite IH. split; [by right|]. by intros [H|H].
Qed.

(** A choice that cannot be read is reported, and nothing else happens in
    that round. *)
Lemma menu_round_unreadable rd w :
  choice_in rd = None ->
  menu_round rd w =
    (Ret tt,
     with_cout (menu_text ++ [Str "System Error: ";
                              Str "Invalid menu choice"; Endl]) w).
Proof.
  intros H. unfold menu_round. rewrite H. run_M. unfold with_cout.
  by rewrite <- app_assoc.
Qed.

(** X8: [main] comes to its end exactly when some round chooses 7; a
    choice that cannot be read, the first one included, is reported as
    "System Error: Invalid menu choice" and the loop goes on.  The records at
    the end are those of the session made of the commands chosen before the
    7; they are saved over the file, of which the old content is lost, and a
    start of the program on the file just saved holds no record and shows the
    corruption warning. *)
Theorem main_runs_session (file : option (list ascii)) (script : list round) :
  (is_Some (main file true script) <->
   Exists (fun rd => choice_in rd = Some 7) script) /\
  (forall rd w, choice_in rd = None ->
     menu_round rd w =
       (Ret tt,
        with_cout (menu_text ++ [Str "System Error: ";
                                 Str "Invalid menu choice"; Endl]) w) /\
     main file true (rd :: script) =
       StudentManagementSystem_destroy <$>
         main_loop script
           (with_cout (menu_text ++ [Str "System Error: ";
                                     Str "Invalid menu choice"; Endl])
              (snd (print [Str "=== STUDENT MANAGEMENT SYSTEM ==="; Endl]
                      (StudentManagementSystem file true))))) /\
  forall w, main file true script = Some w ->
    students w = students (session file (commands_before_exit script)) /\
    disk w = Some (concat (map write_Student (students w))) /\
    forall b, StudentManagementSystem (disk w) b =
      {| students := []; cout := warning; disk := disk w; writable := b |}.
Proof.
  unfold main. split_and!.
  - by rewrite fmap_is_Some, main_loop_returns.
  - intros rd w Hrd. split; [by apply menu_round_unreadable|].
    cbn [main_loop]. by rewrite Hrd, menu_round_unreadable.
  - intros w Hmain. apply fmap_Some in Hmain as (w1 & Hloop & ->).
    apply main_loop_spec in Hloop as [Hst Hext].
    assert (writable w1 = true) as Hw.
    { destruct Hext as (_ & _ & ->). simpl.
      by destruct (construct_extends file true) as (_ & _ & ->). }
    assert (students (StudentManagementSystem_destroy w1) = students w1) as Hd.
    { unfold StudentManagementSystem_destroy, try_catch.
      by rewrite (saveToFile_run _ Hw). }
    split_and!.
    + rewrite Hd, Hst. by apply commands_students.
    + by rewrite Hd, destroy_starts_clean.
    + intros b. rewrite (save_then_load_empty w1 b Hw).
      by rewrite destroy_starts_clean.
Qed.

Lemma main_runs_session_witness :
  exists w,
    main None true
      [unreadable_round;
       {| choice_in := Some 1; name_typed := "Alice";
          rollNo_typed := Some 1; marks_typed := Some f32_88_5 |};
       exit_round] = Some w /\
    students w = students (session None [Add "Alice" (Some 1) (Some f32_88_5)]).
Proof.
  eexists. split; [reflexivity|].
  apply (main_runs_session None
           [unreadable_round;
            {| choice_in := Some 1; name_typed := "Alice";
               rollNo_typed := Some 1; marks_typed := Some f32_88_5 |};
            exit_round]).
  reflexivity.
Defined.

(** X9: when the data file cannot be created, the destructor reports
    "Shutdown error: Cannot create data file" as the last output of the
    program and lets no exception out of [main]; the records are those of
    the session and the file is left as it was found.  This holds for every
    run of [main] that comes to its end, whatever was typed. *)
Theorem main_cannot_save (file : option (list ascii)) (script : list round)
    (w : world) :
  main file false script = Some w ->
  students w = students (session file (commands_before_exit script)) /\
  disk w = file /\
  exists items,
    cout w = items ++ [Str "Shutdown error: ";
                       Str "Cannot create data file"; Endl].
Proof.
  unfold main. intros Hmain. apply fmap_Some in Hmain as (w1 & Hloop & ->).
  apply main_loop_spec in Hloop as [Hst Hext].
  assert (writable w1 = false /\ disk w1 = file) as [Hw Hdisk].
  { destruct Hext as (_ & -> & ->). simpl.
    by destruct (construct_extends file false) as (_ & -> & ->). }
  unfold StudentManagementSystem_destroy, try_catch, saveToFile.
  rewrite Hw. run_M. split_and!.
  - rewrite Hst. unfold session. apply commands_students. simpl.
    apply construct_students.
  - done.
  - by eexists.
Qed.

Lemma main_cannot_save_witness :
  exists w,
    main (Some two_students_file) false [unreadable_round; exit_round]
      = Some w /\
    disk w = Some two_students_file.
Proof.
  eexists. split; [reflexivity|].
  eapply (main_cannot_save (Some two_students_file)
            [unreadable_round; exit_round]).
  reflexivity.
Defined.

(** ** Reading back what was written *)

Section ReadBack.
Import ios.

Lemma span_extend p l c rest :
  p c = false ->
  span p (l ++ c :: rest) = (fst (span p l), snd (span p l) ++ c :: rest).
Proof.
  intros Hc. induction l as [|a l IH]; simpl; [by rewrite Hc|].
  destruct (p a); [|done]. rewrite IH. by destruct (span p l).
Qed.

Lemma span_stopped p l X :
  snd (span p l) <> [] ->
  span p (l ++ X) = (fst (span p l), snd (span p l) ++ X).
Proof.
  induction l as [|a l IH]; simpl; [done|].
  destruct (p a); [|done]. intros H.
  destruct (span p l) as [x r] eqn:Hs. simpl in *. by rewrite IH.
Qed.

Lemma span_all p l :
  Forall (fun c => p c = true) l -> span p l = (l, []).
Proof.
  induction 1 as [|a l Ha _ IH]; simpl; [done|]. by rewrite Ha, IH.
Qed.

Lemma text_of_string s : string_of_list_ascii (text s) = s.
Proof. apply string_of_list_ascii_of_string. Qed.

(** The name line. *)
Lemma getline_written n rest str :
  (newline ∉ text n) ->
  getline (open (text n ++ newline :: rest)) str = (open rest, n).
Proof.
  intros Hn. unfold getline, sentry. simpl.
  rewrite span_extend by done.
  rewrite span_all.
  - simpl. by rewrite text_of_string.
  - apply Forall_forall. intros c Hc.
    destruct (Ascii.eqb_spec c newline) as [->|]; done.
Qed.

(** The digits of a decimal numeral and their value. *)
Lemma uint_digits d :
  Forall (fun c => isdigit c = true) (text (NilEmpty.string_of_uint d)).
Proof. induction d; simpl; by constructor. Qed.

Lemma uint_value_acc d : forall acc : positive,
  fold_left (fun a c => 10 * a + digit_value c)
    (text (NilEmpty.string_of_uint d)) (Z.pos acc) =
  Z.pos (Pos.of_uint_acc d acc).
Proof.
  induction d; intros acc; simpl; [done|..];
    (etrans; [|apply IHd]); f_equal;
    match goal with
    | |- context [digit_value ?c] =>
        let v := eval vm_compute in (digit_value c) in
        change (digit_value c) with v
    end; lia.
Qed.

Lemma uint_value d :
  digits_value (text (NilEmpty.string_of_uint d)) = Z.of_N (Pos.of_uint d).
Proof.
  unfold digits_value. induction d; simpl; [done|apply IHd|..].
  - exact (uint_value_acc d 1).
  - exact (uint_value_acc d 2).
  - exact (uint_value_acc d 3).
  - exact (uint_value_acc d 4).
  - exact (uint_value_acc d 5).
  - exact (uint_value_acc d 6).
  - exact (uint_value_acc d 7).
  - exact (uint_value_acc d 8).
  - exact (uint_value_acc d 9).
Qed.

Lemma pos_digits p :
  exists c ds,
    text (NilZero.string_of_uint (Pos.to_uint p)) = c :: ds /\
    Forall (fun c => isdigit c = true) (c :: ds) /\
    digits_value (c :: ds) = Z.pos p.
Proof.
  pose proof (DecimalPos.Unsigned.of_to p) as Hp.
  pose proof (uint_digits (Pos.to_uint p)) as Hd.
  pose proof (uint_value (Pos.to_uint p)) as Hv. rewrite Hp in Hv.
  assert (NilZero.string_of_uint (Pos.to_uint p) =
          NilEmpty.string_of_uint (Pos.to_uint p)) as ->.
  { destruct (Pos.to_uint p); [done|done..]. }
  destruct (text (NilEmpty.string_of_uint (Pos.to_uint p))) as [|c ds];
    [done|]. by exists c, ds.
Qed.

(** [put_int] writes a minus sign for a negative number, and then digits
    that have the absolute value. *)
Lemma put_int_spec z :
  exists c ds,
    put_int z = (if z <? 0 then ["-"%char] else []) ++ c :: ds /\
    Forall (fun c => isdigit c = true) (c :: ds) /\
    digits_value (c :: ds) = Z.abs z.
Proof.
  unfold put_int. destruct z as [|p|p]; simpl.
  - exists "0"%char, []. split_and!; [done|by repeat constructor|done].
  - destruct (pos_digits p) as (c & ds & H & Hd & Hv). exists c, ds.
    by rewrite H.
  - destruct (pos_digits p) as (c & ds & H & Hd & Hv). exists c, ds.
    unfold text in *. simpl. by rewrite H.
Qed.

Lemma isdigit_not_space c : isdigit c = true -> isspace c = false.
Proof.
  unfold isdigit, isspace. intros H.
  apply andb_true_iff in H as [H1 H2].
  apply Nat.leb_le in H1. apply Nat.leb_le in H2.
  apply orb_false_iff. split.
  - apply Nat.eqb_neq. lia.
  - apply andb_false_iff. right. apply Nat.leb_gt. lia.
Qed.

Lemma isdigit_not_sign c : isdigit c = true -> is_sign c = false.
Proof.
  unfold isdigit, is_sign. intros H.
  apply andb_true_iff in H as [H1 H2].
  apply Nat.leb_le in H1. apply Nat.leb_le in H2.
  apply orb_false_iff.
  split; apply Ascii.eqb_neq; intros ->; vm_compute in H1; lia.
Qed.

Lemma sentry_open a l :
  isspace a = false -> sentry false (open (a :: l)) = (true, open (a :: l)).
Proof. intros Ha. unfold sentry. simpl. by rewrite Ha. Qed.

(** The roll number line, up to its newline. *)
Lemma extract_int_written z rest n :
  INT_MIN <= z <= INT_MAX ->
  extract_int (open (put_int z ++ newline :: rest)) n =
    (open (newline :: rest), z).
Proof.
  intros Hz. destruct (put_int_spec z) as (c & ds & -> & Hd & Hv).
  pose proof Hd as Hd'. apply Forall_cons in Hd' as [Hc _].
  assert (span isdigit ((c :: ds) ++ newline :: rest) =
            (c :: ds, newline :: rest)) as Hspan.
  { rewrite span_extend by done. by rewrite span_all. }
  unfold extract_int.
  destruct (z <? 0) eqn:Hneg.
  - change (["-"%char] ++ c :: ds) with ("-"%char :: (c :: ds)).
    rewrite <- app_comm_cons, sentry_open by done.
    cbn [buf open].
    change (scan_sign ("-"%char :: (c :: ds) ++ newline :: rest))
      with (true, (c :: ds) ++ newline :: rest).
    cbv beta iota. rewrite Hspan.
    rewrite Hv. apply Z.ltb_lt in Hneg. simpl cond_Zopp.
    replace (- Z.abs z) with z by lia.
    destruct (Z.ltb_spec z INT_MIN); [lia|].
    destruct (Z.ltb_spec INT_MAX z); [lia|]. done.
  - change ([] ++ c :: ds) with (c :: ds).
    rewrite <- app_comm_cons, sentry_open by (by apply isdigit_not_space).
    cbn [buf open scan_sign]. rewrite (isdigit_not_sign c Hc).
    cbv beta iota. rewrite app_comm_cons, Hspan.
    rewrite Hv. apply Z.ltb_ge in Hneg. simpl cond_Zopp.
    replace (Z.abs z) with z by lia.
    destruct (Z.ltb_spec z INT_MIN); [lia|].
    destruct (Z.ltb_spec INT_MAX z); [lia|]. done.
Qed.

Lemma not_number_char c :
  number_char c = false ->
  isdigit c = false /\ is_sign c = false /\ Ascii.eqb c "." = false /\
  Ascii.eqb c "e" = false /\ Ascii.eqb c "E" = false /\
  is_zero_char c = false.
Proof.
  unfold number_char. intros H.
  repeat (apply orb_false_iff in H as [H ?]). split_and!; try done.
  unfold is_zero_char. destruct (Ascii.eqb_spec c "0") as [->|]; done.
Qed.

(** A character that cannot belong to a number ends the field where the
    end of the text would. *)
Lemma float_field_extend n c rest : forall l mant dec sci,
  (length l <= n)%nat -> number_char c = false ->
  float_field mant dec sci (l ++ c :: rest) =
    (fst (float_field mant dec sci l),
     snd (float_field mant dec sci l) ++ c :: rest).
Proof.
  induction n as [|n IH]; intros l mant dec sci Hlen Hc;
    pose proof (not_number_char c Hc) as (Hd & Hs & Hp & He & HE & _).
  - destruct l; [|simpl in Hlen; lia]. simpl.
    by rewrite Hd, Hp, He, HE.
  - destruct l as [|a l']; [simpl; by rewrite Hd, Hp, He, HE|].
    simpl in Hlen. simpl.
    destruct (isdigit a).
    { rewrite IH by (done || lia). by destruct (float_field true dec sci l'). }
    destruct (Ascii.eqb a "." && negb dec && negb sci).
    { rewrite IH by (done || lia). by destruct (float_field mant true sci l'). }
    destruct ((Ascii.eqb a "e" || Ascii.eqb a "E") && negb sci && mant);
      [|done].
    destruct l' as [|s l'']; cbn [app].
    + simpl. by rewrite Hs, Hd, Hp, He, HE.
    + simpl in Hlen. destruct (is_sign s).
      * rewrite IH by (done || lia).
        by destruct (float_field mant dec true l'').
      * rewrite app_comm_cons.
        rewrite (IH (s :: l'')) by (done || simpl; lia).
        by destruct (float_field mant dec true (s :: l'')).
Qed.

Lemma scan_float_extend l c rest :
  number_char c = false ->
  scan_float (l ++ c :: rest) =
    (fst (scan_float l), snd (scan_float l) ++ c :: rest).
Proof.
  intros Hc. pose proof (not_number_char c Hc) as (Hd & Hs & Hp & He & HE & Hz).
  assert (forall l0 pre,
    (let '(zs, l2) := span is_zero_char (l0 ++ c :: rest) in
     let zero := match zs with [] => [] | _ => ["0"%char] end in
     let '(x, r) := float_field (negb (bool_decide (zs = []))) false false l2 in
     (pre ++ zero ++ x, r)) =
    (fst (let '(zs, l2) := span is_zero_char l0 in
          let zero := match zs with [] => [] | _ => ["0"%char] end in
          let '(x, r) :=
            float_field (negb (bool_decide (zs = []))) false false l2 in
          (pre ++ zero ++ x, r)),
     snd (let '(zs, l2) := span is_zero_char l0 in
          let zero := match zs with [] => [] | _ => ["0"%char] end in
          let '(x, r) :=
            float_field (negb (bool_decide (zs = []))) false false l2 in
          (pre ++ zero ++ x, r)) ++ c :: rest)) as Hbody.
  { intros l0 pre. rewrite span_extend by done.
    destruct (span is_zero_char l0) as [zs l2]. cbn [fst snd].
    rewrite (float_field_extend (length l2)) by done.
    by destruct (float_field (negb (bool_decide (zs = []))) false false l2). }
  unfold scan_float. destruct l as [|a l'].
  - cbn [app]. rewrite Hs. apply (Hbody [] []).
  - rewrite <- app_comm_cons. cbv beta iota. destruct (is_sign a).
    + apply (Hbody l' [a]).
    + rewrite app_comm_cons. apply (Hbody (a :: l') []).
Qed.

(** The marks line, up to its newline: marks whose text reads back on its
    own read back in front of a newline. *)
Lemma extract_float_written m rest x :
  marks_read_back m ->
  extract_float (open (put_float m ++ newline :: rest)) x =
    (open (newline :: rest), m).
Proof.
  unfold marks_read_back, extract_float, sentry.
  generalize (put_float m). intros l. cbn [good open eofbit failbit badbit orb negb buf].
  destruct (span isspace l) as [ws l1] eqn:Hsp.
  cbn [snd].
  destruct l1 as [|a l1]; [by intros [=]|].
  rewrite span_stopped by (by rewrite Hsp).
  rewrite Hsp. cbn [fst snd].
  rewrite <- app_comm_cons. cbn [buf advance].
  rewrite app_comm_cons, scan_float_extend by done.
  destruct (scan_float (a :: l1)) as [field r]. cbn [fst snd].
  intros H.
  assert (r = []) as ->.
  { destruct (strtof field) as [[]|]; by injection H as H _. }
  rewrite app_nil_l. cbn [bool_decide decide_rel].
  destruct (strtof field) as [v|]; [|by injection H].
  destruct v; unfold advance, at_eof in H; simpl in H;
    try discriminate H; by injection H as <-.
Qed.

(** The newline that ends the roll number line is skipped as white space. *)
Lemma extract_float_newline l x :
  extract_float (open (newline :: l)) x = extract_float (open l) x.
Proof.
  unfold extract_float, sentry. simpl.
  by destruct (span isspace l) as [ws [|a r]].
Qed.

(** The three fields of a written record, and the newline behind them. *)
Lemma read_fields_written s s0 rest :
  record_storable s ->
  read_fields (open (write_Student s ++ rest)) s0 = Ret (open rest, s).
Proof.
  intros (Hn & Hr & Hm).
  unfold write_Student, read_fields. rewrite <- !app_assoc. simpl app.
  rewrite getline_written by done. cbn [fail open failbit badbit orb].
  rewrite extract_int_written by done. cbn [fail open failbit badbit orb].
  rewrite extract_float_newline, extract_float_written by done.
  cbn [fail open failbit badbit orb]. by destruct s.
Qed.

Lemma read_Student_written s s0 rest :
  record_storable s ->
  read_Student (open (write_Student s ++ rest)) s0 = Ret (open rest, s).
Proof.
  intros Hs. unfold read_Student. by rewrite read_fields_written.
Qed.

(** X10: [operator>>] reads back a record that [operator<<] wrote,
    whatever text follows it, and stops right behind the record with no
    state bit set.  This holds for every record whose name has no newline,
    whose roll number is an [int] and whose marks are written with all
    their digits; the name may be empty and no field has to be valid. *)
Theorem read_back_record (s s0 : Student) (rest : list ascii) :
  record_storable s ->
  read_fields (open (write_Student s ++ rest)) s0 = Ret (open rest, s) /\
  read_Student (open (write_Student s ++ rest)) s0 = Ret (open rest, s).
Proof.
  intros Hs. split.
  - by apply read_fields_written.
  - by apply read_Student_written.
Qed.

Lemma read_back_record_witness :
  read_Student (open (two_students_file ++ text "x")) Student_default =
    Ret (open (text "Bob" ++ newline :: text "2" ++ newline :: text "42"
                 ++ newline :: text "x"),
         {| name := "Alice"; rollNo := 1; marks := f32_88_5 |}).
Proof.
  apply (read_back_record {| name := "Alice"; rollNo := 1; marks := f32_88_5 |}
           Student_default
           (text "Bob" ++ newline :: text "2" ++ newline :: text "42"
              ++ newline :: text "x")).
  split; [|split].
  - vm_compute. intros H.
    repeat (apply elem_of_cons in H as [[=]|H]). by apply elem_of_nil in H.
  - unfold INT_MIN, INT_MAX. simpl. lia.
  - vm_compute. reflexivity.
Defined.

End ReadBack.

(** Marks that are whole numbers from 0 to 100 are written with all their
    digits. *)
Lemma whole_marks_read_back (n : Z) :
  0 <= n <= 100 -> marks_read_back (Float32.of_Z n).
Proof.
  intros Hn. assert (exists k, n = Z.of_nat k /\ (k <= 100)%nat) as (k & -> & Hk).
  { exists (Z.to_nat n). lia. }
  clear Hn. unfold marks_read_back.
  do 101 (destruct k as [|k]; [vm_compute; reflexivity|]). lia.
Qed.

Section LoadWritten.
Import ios.

Lemma extract_float_alone m x :
  marks_read_back m -> extract_float (open (put_float m)) x = (at_eof, m).
Proof.
  unfold marks_read_back, extract_float.
  destruct (sentry false (open (put_float m))) as [[] f] eqn:Hs; [done|].
  apply sentry_failed in Hs. intros [= -> _]. done.
Qed.

(** The last record of a file that lacks the final newline: the fields are
    read, and the [ignore] that follows finds the stream at its end and
    sets [failbit]. *)
Lemma read_unterminated s s0 :
  record_storable s ->
  read_Student (open (write_unterminated s)) s0 =
    Ret ({| buf := []; eofbit := true; failbit := true; badbit := false |}, s).
Proof.
  intros (Hn & Hr & Hm). unfold read_Student, read_fields, write_unterminated.
  simpl app.
  rewrite getline_written by done. cbn [fail open failbit badbit orb].
  rewrite extract_int_written by done. cbn [fail open failbit badbit orb].
  rewrite extract_float_newline, extract_float_alone by done.
  cbn. by destruct s.
Qed.

Lemma with_students_push s l w :
  with_students
    (students {| students := students w ++ [s]; cout := cout w;
                 disk := disk w; writable := writable w |} ++ l)
    {| students := students w ++ [s]; cout := cout w;
       disk := disk w; writable := writable w |} =
  with_students (students w ++ s :: l) w.
Proof. unfold with_students. simpl. by rewrite <- app_assoc. Qed.

(** The loop reads back the records of a written file one by one, and goes
    on with the text behind them. *)
Lemma load_loop_written l : forall fuel rest s0 w,
  Forall record_storable l ->
  load_loop (length l + fuel) (open (concat (map write_Student l) ++ rest)) s0 w =
  load_loop fuel (open rest) (default s0 (last l))
    (with_students (students w ++ l) w).
Proof.
  induction l as [|s l IH]; intros fuel rest s0 w Hall.
  - simpl. rewrite app_nil_r. by destruct w.
  - apply Forall_cons in Hall as [Hs Hall].
    cbn [length Nat.add map concat load_loop]. rewrite <- app_assoc.
    unfold mbind at 1. unfold M_bind at 1. unfold lift at 1.
    rewrite read_Student_written by done.
    cbn [fail open failbit badbit orb].
    unfold mbind at 1. unfold M_bind at 1. unfold push_back at 1.
    unfold mbind at 1. unfold M_bind at 1. unfold get_students at 1.
    unfold set_students at 1.
    rewrite IH by done. rewrite with_students_push.
    f_equal. rewrite last_cons. by destruct (last l).
Qed.

Lemma write_Student_length l :
  (length l <= length (concat (map write_Student l)))%nat.
Proof.
  induction l as [|s l IH]; simpl; [done|].
  rewrite length_app. destruct (write_Student_ends s) as [k ->].
  rewrite length_app. simpl. lia.
Qed.

End LoadWritten.

(** X11: when [loadFromFile] reads a file that [saveToFile] wrote, the
    loop reads back every record, in order and unchanged, and only then does
    the attempt to read one more name at the end of the file throw the
    corruption error, upon which the handler empties the vector. *)
Theorem load_reads_every_record (l : list Student) (w : world) :
  Forall record_storable l ->
  load_loop (S (length (concat (map write_Student l))))
    (ios.open (concat (map write_Student l))) Student_default w =
    (Throw corrupted, with_students (students w ++ l) w) /\
  forall b, StudentManagementSystem (Some (concat (map write_Student l))) b =
    {| students := []; cout := warning;
       disk := Some (concat (map write_Student l)); writable := b |}.
Proof.
  intros Hall. split.
  - pose proof (write_Student_length l) as Hlen.
    replace (S (length (concat (map write_Student l))))
      with (length l + S (length (concat (map write_Student l)) - length l))%nat
      by lia.
    rewrite <- (app_nil_r (concat (map write_Student l))) at 2.
    rewrite load_loop_written by done.
    cbn [load_loop]. unfold mbind at 1. unfold M_bind at 1. unfold lift at 1.
    unfold read_Student. by rewrite read_fields_at_end.
  - intros b. apply ends_outside_number_load, saved_file_ends.
Qed.

Lemma load_reads_every_record_witness :
  load_loop (S (length two_students_file)) (ios.open two_students_file)
    Student_default (with_students [] two_students) =
  (Throw corrupted, two_students).
Proof.
  apply (load_reads_every_record (students two_students)
           (with_students [] two_students)).
  repeat constructor; try (vm_compute; reflexivity);
    try (unfold ios.INT_MIN, ios.INT_MAX; simpl; lia);
    vm_compute; intros H;
    repeat (apply elem_of_cons in H as [[=]|H]); by apply elem_of_nil in H.
Defined.

(** X12: a written file that lacks its final newline loads without a
    warning, and without its last record: every record but the last is
    stored, the last one is read and dropped, and the program reports the
    number of records it kept. *)
Theorem load_drops_last_record (l : list Student) (s : Student) (b : bool) :
  Forall record_storable l -> record_storable s ->
  StudentManagementSystem
    (Some (concat (map write_Student l) ++ write_unterminated s)) b =
    {| students := l;
       cout := [Str "Data loaded successfully. "; Num (Z.of_nat (length l));
                Str " records found."; Endl];
       disk := Some (concat (map write_Student l) ++ write_unterminated s);
       writable := b |}.
Proof.
  intros Hall Hs.
  set (file := concat (map write_Student l) ++ write_unterminated s).
  remember {| students := []; cout := []; disk := Some file; writable := b |}
    as w eqn:Hw.
  assert (load_loop (S (length file)) (ios.open file) Student_default w =
          (Ret (Some {| ios.buf := []; ios.eofbit := true;
                        ios.failbit := true; ios.badbit := false |}),
           with_students l w)) as Hloop.
  { pose proof (write_Student_length l) as Hlen.
    replace (S (length file))
      with (length l + S (length file - length l))%nat
      by (subst file; rewrite length_app; lia).
    subst file. rewrite load_loop_written by done.
    cbn [load_loop]. unfold mbind at 1. unfold M_bind at 1. unfold lift at 1.
    rewrite read_unterminated by done. by subst w. }
  assert (loadFromFile w =
          (Ret tt,
           {| students := l;
              cout := [Str "Data loaded successfully. ";
                       Num (Z.of_nat (length l)); Str " records found."; Endl];
              disk := Some file; writable := b |})) as Hload.
  { unfold loadFromFile. replace (disk w) with (Some file) by (by subst w).
    unfold try_catch at 1. unfold mbind at 1. unfold M_bind at 1.
    rewrite Hloop. subst w. by run_M. }
  rewrite Hw in Hload. unfold StudentManagementSystem, try_catch.
  by rewrite Hload.
Qed.

Lemma load_drops_last_record_witness :
  students
    (StudentManagementSystem
       (Some (concat (map write_Student
                        [{| name := ""; rollNo := -7; marks := Float32.of_Z 5 |}])
                ++ write_unterminated
                     {| name := "B"; rollNo := 2; marks := Float32.of_Z 6 |}))
       true) =
    [{| name := ""; rollNo := -7; marks := Float32.of_Z 5 |}].
Proof.
  assert (forall n r m, 0 <= m <= 100 -> -9 <= r <= 9 ->
            (newline ∉ text n) ->
            record_storable {| name := n; rollNo := r; marks := Float32.of_Z m |})
    as Hrec.
  { intros n r m Hm Hr Hn. split; [done|]. split.
    - unfold ios.INT_MIN, ios.INT_MAX. simpl. lia.
    - by apply whole_marks_read_back. }
  rewrite (load_drops_last_record
             [{| name := ""; rollNo := -7; marks := Float32.of_Z 5 |}]
             {| name := "B"; rollNo := 2; marks := Float32.of_Z 6 |} true);
    [done| |].
  - constructor; [|constructor]. apply Hrec; [lia..|]. apply not_elem_of_nil.
  - apply Hrec; [lia..|]. intros H.
    apply elem_of_cons in H as [H|H]; [discriminate H|].
    by apply elem_of_nil in H.
Defined.

(** ** The outcomes of loading *)

Section BadBit.
Import ios.

Lemma sentry_badbit b f : badbit (snd (sentry b f)) = badbit f.
Proof.
  unfold sentry. destruct (good f); [|done]. destruct b; [done|].
  by destruct (snd (span isspace (buf f))).
Qed.

Lemma getline_badbit f str : badbit (fst (getline f str)) = badbit f.
Proof.
  unfold getline. pose proof (sentry_badbit true f) as H.
  destruct (sentry true f) as [[] f1]; simpl in H; [|done].
  destruct (span _ (buf f1)) as [line [|c rest]]; simpl; done.
Qed.

Lemma extract_int_badbit f n : badbit (fst (extract_int f n)) = badbit f.
Proof.
  unfold extract_int. pose proof (sentry_badbit false f) as H.
  destruct (sentry false f) as [[] f1]; simpl in H; [|done].
  destruct (scan_sign (buf f1)) as [neg l].
  destruct (span isdigit l) as [[|d ds] rest]; [done|].
  destruct (_ <? INT_MIN); [done|]. by destruct (INT_MAX <? _).
Qed.

Lemma extract_float_badbit f x : badbit (fst (extract_float f x)) = badbit f.
Proof.
  unfold extract_float. pose proof (sentry_badbit false f) as H.
  destruct (sentry false f) as [[] f1]; simpl in H; [|done].
  destruct (scan_float (buf f1)) as [field rest].
  by destruct (strtof field) as [[]|].
Qed.

Lemma ignore_badbit f : badbit (ignore f) = badbit f.
Proof.
  unfold ignore. pose proof (sentry_badbit true f) as H.
  destruct (sentry true f) as [[] f1]; simpl in H; [|done].
  by destruct (buf f1).
Qed.

(** Reading text never sets [badbit], which stands for a failure of the
    device. *)
Lemma read_Student_badbit f s f' s' :
  read_Student f s = Ret (f', s') -> badbit f' = badbit f.
Proof.
  unfold read_Student, read_fields.
  pose proof (getline_badbit f (name s)) as H1.
  destruct (getline f (name s)) as [f1 n]. destruct (fail f1); [done|].
  pose proof (extract_int_badbit f1 (rollNo s)) as H2.
  destruct (extract_int f1 (rollNo s)) as [f2 r]. destruct (fail f2); [done|].
  pose proof (extract_float_badbit f2 (marks s)) as H3.
  destruct (extract_float f2 (marks s)) as [f3 m]. destruct (fail f3); [done|].
  intros [= <- _]. rewrite ignore_badbit. simpl in *. congruence.
Qed.

Lemma load_loop_badbit fuel : forall file s w f' w',
  load_loop fuel file s w = (Ret (Some f'), w') -> badbit f' = badbit file.
Proof.
  induction fuel as [|k IH]; intros file s w f' w'; simpl; run_M; [done|].
  destruct (read_Student file s) as [[f1 s1]|e] eqn:Hr; [|done].
  apply read_Student_badbit in Hr.
  destruct (fail f1).
  - intros [= <- _]. done.
  - intros H. apply IH in H. congruence.
Qed.

End BadBit.

Lemma ends_outside_number_dec l :
  ends_outside_number l \/ ~ ends_outside_number l.
Proof.
  unfold ends_outside_number. destruct (last l) as [c|]; [|by left].
  destruct (number_char c) eqn:Hc.
  - right. intros H. specialize (H c eq_refl). congruence.
  - left. by intros c' [= <-].
Qed.

(** With a file, [loadFromFile] ends with the warning and no record, or
    with the count of the records it has stored. *)
Lemma loadFromFile_outcomes w content :
  disk w = Some content ->
  loadFromFile w = (Ret tt, with_students [] (with_cout warning w)) \/
  exists l,
    loadFromFile w =
      (Ret tt,
       with_students l
         (with_cout [Str "Data loaded successfully. ";
                     Num (Z.of_nat (length l)); Str " records found."; Endl]
                    w)).
Proof.
  intros Hd. unfold loadFromFile. rewrite Hd.
  pose proof (load_loop_fuel (S (length content)) (ios.open content)
                Student_default w) as Hfuel.
  destruct (load_loop (S (length content)) (ios.open content) Student_default w)
    as [[[f|]|e] w'] eqn:Hloop.
  - right. exists (students w').
    unfold try_catch at 1. unfold mbind at 1. unfold M_bind at 1.
    rewrite Hloop. apply load_loop_badbit in Hloop as Hbad.
    apply load_loop_frame in Hloop. rewrite Hloop.
    unfold ios.bad. rewrite Hbad. by run_M.
  - exfalso. apply Hfuel; [simpl; lia|done].
  - left. unfold try_catch at 1. unfold mbind at 1. unfold M_bind at 1.
    rewrite Hloop. apply load_loop_Throw in Hloop as He. subst e.
    apply load_loop_frame in Hloop. rewrite Hloop. by run_M.
Qed.

(** X13: the constructor ends in one of three ways, each with its one
    message.  Without a file it starts empty and says so.  With a file it
    either keeps no record and prints the corruption warning, or it prints
    "Data loaded successfully" with the number of records it holds, and this
    only for a file that ends inside a number.  "Initialization error" and
    "Error reading from file" are never printed, and the file is not
    touched. *)
Theorem construct_outcomes (file : option (list ascii)) (b : bool) :
  disk (StudentManagementSystem file b) = file /\
  writable (StudentManagementSystem file b) = b /\
  match file with
  | None =>
      students (StudentManagementSystem file b) = [] /\
      cout (StudentManagementSystem file b) =
        [Str "No existing data file found. Starting fresh."; Endl]
  | Some content =>
      (students (StudentManagementSystem file b) = [] /\
       cout (StudentManagementSystem file b) = warning) \/
      (cout (StudentManagementSystem file b) =
         [Str "Data loaded successfully. ";
          Num (Z.of_nat (length (students (StudentManagementSystem file b))));
          Str " records found."; Endl] /\
       ~ ends_outside_number content)
  end.
Proof.
  destruct (construct_extends file b) as (_ & Hd & Hw).
  split_and!; [done..|].
  destruct file as [content|]; [|done].
  destruct (ends_outside_number_dec content) as [Hend|Hend].
  { left. by rewrite (ends_outside_number_load content b Hend). }
  unfold StudentManagementSystem, try_catch.
  destruct (loadFromFile_outcomes
              {| students := []; cout := []; disk := Some content;
                 writable := b |} content eq_refl) as [->|[l ->]].
  - by left.
  - right. by split.
Qed.

(** X14: a record whose marks are a whole number from 0 to 100 is
    written with the marks as a plain decimal numeral, and is read back as it
    was, whatever follows it in the file; the name must not contain a
    newline and the roll number must be an [int]. *)
Theorem whole_marks_round_trip (n : string) (r m : Z) (s0 : Student)
    (rest : list ascii) :
  (newline ∉ text n) -> ios.INT_MIN <= r <= ios.INT_MAX -> 0 <= m <= 100 ->
  write_Student {| name := n; rollNo := r; marks := Float32.of_Z m |} =
    text n ++ newline :: ios.put_int r ++ newline :: ios.put_int m ++ [newline] /\
  read_Student
    (ios.open (write_Student {| name := n; rollNo := r; marks := Float32.of_Z m |}
                 ++ rest)) s0 =
    Ret (ios.open rest, {| name := n; rollNo := r; marks := Float32.of_Z m |}).
Proof.
  intros Hn Hr Hm. split.
  - unfold write_Student. cbn [name rollNo marks]. simpl app.
    do 2 f_equal. f_equal. f_equal.
    assert (exists k, m = Z.of_nat k /\ (k <= 100)%nat) as (k & -> & Hk).
    { exists (Z.to_nat m). lia. }
    clear Hm. do 101 (destruct k as [|k]; [vm_compute; reflexivity|]). lia.
  - apply read_Student_written. split; [done|]. split; [exact Hr|].
    by apply whole_marks_read_back.
Qed.

Lemma whole_marks_round_trip_witness :
  read_Student
    (ios.open (write_Student
                 {| name := "Bob"; rollNo := 2; marks := Float32.of_Z 42 |}
                 ++ text "x")) Student_default =
    Ret (ios.open (text "x"),
         {| name := "Bob"; rollNo := 2; marks := Float32.of_Z 42 |}).
Proof.
  apply (whole_marks_round_trip "Bob" 2 42 Student_default (text "x")).
  - vm_compute. intros H.
    repeat (apply elem_of_cons in H as [[=]|H]). by apply elem_of_nil in H.
  - unfold ios.INT_MIN, ios.INT_MAX. lia.
  - lia.
Defined.

(** ** The class invariant *)

Lemma after_call_invariant s c :
  (0 <= rollNo s /\ marks_rejected (marks s) = false) ->
  (0 <= rollNo (after_call s c) /\
   marks_rejected (marks (after_call s c)) = false) /\
  (name (after_call s c) = "" -> name s = "").
Proof.
  intros [Hr Hm]. unfold after_call, call, setName, setRollNo, setMarks.
  destruct c as [n|r|m]; simpl.
  - destruct (str_empty n) eqn:Hn; simpl; [done|]. split; [done|].
    intros ->. done.
  - destruct (Z.ltb_spec r 0); simpl; [done|]. by split_and!.
  - destruct (marks_rejected m) eqn:Hm'; simpl; done.
Qed.

(** X15: an object of [Student] that the constructor has built keeps a
    roll number that is not negative and marks that are not rejected through
    any sequence of setter calls, whether they throw or not.  The constructor
    does not check the name, which [setName] does: the name is empty after
    the calls only if the object was constructed with an empty name. *)
Theorem Student_invariant (n : string) (r : Z) (m : spec_float) (s : Student)
    (cs : list setter) :
  Student_new n r m = Ret s ->
  0 <= rollNo (fold_left after_call cs s) /\
  marks_rejected (marks (fold_left after_call cs s)) = false /\
  (name (fold_left after_call cs s) = "" -> n = "") /\
  (0 <= r -> marks_rejected m = false ->
   Student_new "" r m = Ret {| name := ""; rollNo := r; marks := m |}).
Proof.
  intros Hnew.
  assert (0 <= rollNo s /\ marks_rejected (marks s) = false /\ name s = n)
    as (Hr & Hm & Hn).
  { unfold Student_new in Hnew. destruct (Z.ltb_spec r 0); [done|].
    destruct (marks_rejected m) eqn:Hm; [done|]. by injection Hnew as <-. }
  clear Hnew. subst n. revert s Hr Hm.
  induction cs as [|c cs IH]; intros s Hr Hm; simpl.
  - split_and!; [done..|]. intros Hr' Hm'. unfold Student_new.
    destruct (Z.ltb_spec r 0); [lia|]. by rewrite Hm'.
  - destruct (after_call_invariant s c (conj Hr Hm)) as [[Hr1 Hm1] Hn1].
    destruct (IH _ Hr1 Hm1) as (H1 & H2 & H3 & H4).
    split_and!; [done..| |done]. intros H. by apply Hn1, H3.
Qed.

Lemma Student_invariant_witness :
  0 <= rollNo (fold_left after_call
                 [SetMarks f32_100_01; SetRollNo (-3); SetName "";
                  SetName "Ann"; SetMarks f32_42]
                 {| name := ""; rollNo := 1; marks := f32_88_5 |}).
Proof.
  apply (Student_invariant "" 1 f32_88_5). reflexivity.
Defined.

(** ** Malformed files *)

Section Malformed.
Import ios.










End Malformed.



